(** * FHIR API client: request execution and success classification

    A shallow embedding of [client.py] (class [FhirApiClient]) and of the
    parts of [utils.py] it relies on ([requests_retry_session],
    [check_service_status]), followed by the properties established about
    them.

    Python values are embedded as the inductive [pyval]; raised exceptions
    and the two effects of the code (requests handed to the [requests]
    session, records handed to the logger) are threaded through the monad
    [M], a state-and-exception monad over [world]. The remote end is an
    oracle [remote]: it maps the requests already sent and the current
    request to either a response or a raised transport exception. *)

From Stdlib Require Import ZArith String Ascii SpecFloat.
From stdpp Require Import base strings gmap list pretty.

Open Scope string_scope.
Open Scope list_scope.
Open Scope Z_scope.

(** ** Python values *)

(** What [response.json()] can return, and [str] for raw text. A JSON object
    is kept as the list of its members in order, as a Python [dict] keeps
    them; lookup takes the first binding of a key. *)
#[local] Unset Elimination Schemes.
Inductive pyval : Type :=
| PNone
| PBool (b : bool)
| PInt (z : Z)
| PFloat (f : spec_float)
| PStr (s : string)
| PList (l : list pyval)
| PDict (d : list (string * pyval)).
#[local] Set Elimination Schemes.

Inductive exn : Type :=
| AttributeError (type_name attr : string)
| KeyError (key : string)
| TypeError (msg : string)
| ConnectionError (detail : string)
    (* requests.exceptions.ConnectionError and its subclasses *)
| RequestException (detail : string)
    (* every other exception of requests: RetryError, ReadTimeout,
       MissingSchema, ... *)
| SystemExit (code : Z).

Inductive outcome (A : Type) : Type :=
| Ok (a : A)
| Raise (e : exn).
Arguments Ok {A} a.
Arguments Raise {A} e.

Definition type_name (v : pyval) : string :=
  match v with
  | PNone => "NoneType"
  | PBool _ => "bool"
  | PInt _ => "int"
  | PFloat _ => "float"
  | PStr _ => "str"
  | PList _ => "list"
  | PDict _ => "dict"
  end.

(** Truth value of an object, as [or], [not] and [if] test it. *)
Definition truthy (v : pyval) : bool :=
  match v with
  | PNone => false
  | PBool b => b
  | PInt z => negb (z =? 0)
  | PFloat (S754_zero _) => false
  | PFloat _ => true
  | PStr "" => false
  | PStr _ => true
  | PList [] => false
  | PList _ => true
  | PDict [] => false
  | PDict _ => true
  end.

Fixpoint dict_lookup (key : string) (d : list (string * pyval)) : option pyval :=
  match d with
  | [] => None
  | (k, v) :: d' => if String.eqb k key then Some v else dict_lookup key d'
  end.

(** [obj.get(key, dflt)]: only a dict has the method. *)
Definition py_get (obj : pyval) (key : string) (dflt : pyval) : outcome pyval :=
  match obj with
  | PDict d => Ok (default dflt (dict_lookup key d))
  | _ => Raise (AttributeError (type_name obj) "get")
  end.

(** [obj[key]] for a string key. *)
Definition py_getitem (obj : pyval) (key : string) : outcome pyval :=
  match obj with
  | PDict d =>
      match dict_lookup key d with
      | Some v => Ok v
      | None => Raise (KeyError key)
      end
  | PList _ => Raise (TypeError "list indices must be integers or slices, not str")
  | PStr _ => Raise (TypeError "string indices must be integers")
  | _ => Raise (TypeError ("'" +:+ type_name obj +:+ "' object is not subscriptable"))
  end.

Fixpoint chars (s : string) : list pyval :=
  match s with
  | EmptyString => []
  | String c s' => PStr (String c EmptyString) :: chars s'
  end.

(** The items a [for] loop or a comprehension draws from an object. *)
Definition py_iter (obj : pyval) : outcome (list pyval) :=
  match obj with
  | PList l => Ok l
  | PStr s => Ok (chars s)
  | PDict d => Ok (map (λ kv, PStr kv.1) d)
  | _ => Raise (TypeError ("'" +:+ type_name obj +:+ "' object is not iterable"))
  end.

(** [v == s] for a string literal [s]. *)
Definition py_eq_str (v : pyval) (s : string) : bool :=
  match v with
  | PStr s' => String.eqb s' s
  | _ => false
  end.

(** [str.upper] and [str.lower] on ASCII letters. The names the session
    dispatches on are ASCII, where this is all Python's methods do. *)
Definition upper_ascii (c : ascii) : ascii :=
  let n := N_of_ascii c in
  if ((97 <=? n) && (n <=? 122))%N then ascii_of_N (n - 32) else c.

Definition lower_ascii (c : ascii) : ascii :=
  let n := N_of_ascii c in
  if ((65 <=? n) && (n <=? 90))%N then ascii_of_N (n + 32) else c.

Fixpoint upper (s : string) : string :=
  match s with
  | EmptyString => EmptyString
  | String c s' => String (upper_ascii c) (upper s')
  end.

Fixpoint lower (s : string) : string :=
  match s with
  | EmptyString => EmptyString
  | String c s' => String (lower_ascii c) (lower s')
  end.

(** [s.split('.')[0]]: the text before the first dot, all of [s] when
    there is none. *)
Fixpoint split_dot_head (s : string) : string :=
  match s with
  | EmptyString => EmptyString
  | String c s' =>
      if Ascii.eqb c "."%char then EmptyString else String c (split_dot_head s')
  end.

(** An optional string is [None] or a [str]; [fmt_opt] is what an f-string
    prints for it. *)
Definition fmt_opt (o : option string) : string := default "None" o.

Definition truthy_opt (o : option string) : bool :=
  match o with
  | None | Some "" => false
  | Some _ => true
  end.

(** ** The requests layer *)

(** [urllib3.Retry] as [requests_retry_session] configures it. *)
Record Retry := {
  total : Z;
  read : Z;
  connect : Z;
  backoff_factor : Z;
  status_forcelist : list Z;
  method_whitelist : bool
}.

(** A [requests.Session]: what matters of it is the retry policy of the
    adapter mounted for both URL schemes. *)
Record Session := { max_retries : Retry }.

(** The request functions a session offers. *)
Inductive verb := GET | OPTIONS | HEAD | POST | PUT | PATCH | DELETE.

Definition credential : Type := string * string.

(** Keyword arguments handed on to [requests]. A key bound to [None] and
    an absent key are the same to [requests], and are both [None] here. *)
Record kwargs := {
  kw_auth : option credential;
  kw_headers : option (gmap string string);
  kw_json : option pyval
}.

Definition no_kwargs : kwargs :=
  {| kw_auth := None; kw_headers := None; kw_json := None |}.

Record request := {
  req_session : Session;
  req_verb : verb;
  req_url : option string;
  req_kwargs : kwargs
}.

(** A [requests.Response]. [json] is [None] when [response.json()] raises
    [JSONDecodeError]. *)
Module Response.
Record t := {
  status_code : Z;
  url : string;
  text : string;
  json : option pyval
}.
End Response.

Inductive level := DEBUG | INFO | WARNING | ERROR.

(** ** Effects *)

Record world := {
  sent : list request;
  logged : list (level * string)
}.

(** What the code takes from its surroundings: the remote end, and library
    functions whose results are only logged or passed on. *)
Record env := {
  remote : list request → request → outcome Response.t;
  unquote : string → string;          (* urllib.parse.unquote *)
  pformat : pyval → string;           (* pprint.pformat *)
  repr : pyval → string               (* str() of a float, list or dict *)
}.

Definition M (A : Type) : Type := world → outcome A * world.

Definition ret {A} (a : A) : M A := λ w, (Ok a, w).

Definition raise {A} (e : exn) : M A := λ w, (Raise e, w).

Definition bind {A B} (m : M A) (k : A → M B) : M B :=
  λ w, match m w with
       | (Ok a, w') => k a w'
       | (Raise e, w') => (Raise e, w')
       end.

Definition lift {A} (o : outcome A) : M A := λ w, (o, w).

Notation "x <- c ;; k" := (bind c (λ x, k))
  (at level 100, c at next level, right associativity).
Notation "c ;;; k" := (bind c (λ _, k))
  (at level 100, right associativity).

Definition log (lv : level) (msg : string) : M unit :=
  λ w, (Ok tt, {| sent := sent w; logged := logged w ++ [(lv, msg)] |}).

(** [exit(code)] raises [SystemExit]. *)
Definition exit {A} (code : Z) : M A := raise (SystemExit code).

(** [str(v)], as an f-string prints a value. *)
Definition py_str (E : env) (v : pyval) : string :=
  match v with
  | PNone => "None"
  | PBool true => "True"
  | PBool false => "False"
  | PInt z => pretty z
  | PStr s => s
  | _ => repr E v
  end.

(** One call of a request function of the session: the request goes out
    and the remote end answers or the transport raises. *)
Definition session_request (E : env) (s : Session) (v : verb)
    (u : option string) (kw : kwargs) : M Response.t :=
  λ w,
    let rq := {| req_session := s; req_verb := v; req_url := u; req_kwargs := kw |} in
    (remote E (sent w) rq, {| sent := sent w ++ [rq]; logged := logged w |}).

(** [getattr(session, name)]. A name that is no request function ends in
    an exception before anything is sent: the session has no such
    attribute, or has one that does not take [(url, headers=...)]. *)
Definition session_getattr (name : string) : outcome verb :=
  if String.eqb name "get" then Ok GET
  else if String.eqb name "options" then Ok OPTIONS
  else if String.eqb name "head" then Ok HEAD
  else if String.eqb name "post" then Ok POST
  else if String.eqb name "put" then Ok PUT
  else if String.eqb name "patch" then Ok PATCH
  else if String.eqb name "delete" then Ok DELETE
  else Raise (AttributeError "Session" name).

(** ** utils.py *)

Module utils.

Definition requests_retry_session (session : option Session)
    (total read connect status backoff_factor : Z)
    (status_forcelist : list Z) : Session :=
  let retry := {| total := total; read := read; connect := connect;
                  backoff_factor := backoff_factor;
                  status_forcelist := status_forcelist;
                  method_whitelist := false |} in
  {| max_retries := retry |}.

Definition default_session : Session :=
  requests_retry_session None 10 10 1 10 5 [500; 502; 503; 504].

Definition check_service_status (E : env) (url : option string)
    (exit_on_down : bool) (request_kwargs : kwargs) : M bool :=
  let probe := requests_retry_session None 1 10 1 10 5 [500; 502; 503; 504] in
  is_down <- (λ w,
      match session_request E probe GET url request_kwargs w with
      | (Raise (ConnectionError _), w') =>
          (log ERROR ("Connection error! Is service at " +:+ fmt_opt url +:+
                      " up and running?") ;;;
           ret true) w'
      | (Raise e, w') => (Raise e, w')
      | (Ok response, w') =>
          (let is_down := 300 <=? Response.status_code response in
           (if is_down
            then log WARNING ("Service " +:+ fmt_opt url +:+
                              " is up but returned non 200 status. Caused by " +:+
                              Response.text response)
            else ret tt) ;;;
           ret is_down) w'
      end) ;;
  if exit_on_down && is_down
  then log INFO "Exiting program!" ;;; exit 1
  else ret is_down.

End utils.

(** ** client.py *)

Module client.

Definition FHIR_VERSION : string := "4.0.0".

Record FhirApiClient := {
  base_url : option string;
  status_endpoint : option string;
  auth : option credential;
  fhir_version : option string;
  session : Session
}.

Definition __init__ (base_url : option string) (auth : option credential)
    (fhir_version status_endpoint : option string) : FhirApiClient :=
  {| base_url := base_url; status_endpoint := status_endpoint; auth := auth;
     fhir_version := fhir_version; session := utils.default_session |}.

(** The result dict of [send_request]. *)
Record result := {
  res_status_code : Z;
  res_request_url : string;
  res_response : pyval
}.

(** The [defaultdict(dict)] of [post_or_put_all]: its two inner dicts,
    each empty until first written. *)
Record results := {
  res_success : gmap string result;
  res_errors : gmap string result
}.

(** An element of [resource_dicts]. [rd_endpoint] is [None] when the dict
    has no 'endpoint' key. *)
Record resource_dict := {
  rd_content : pyval;
  rd_resource_type : string;
  rd_filename : string;
  rd_filepath : string;
  rd_endpoint : option string
}.

Definition nl : string := String (ascii_of_N 10) EmptyString.

Definition _fhir_version_headers (self : FhirApiClient) : gmap string string :=
  match fhir_version self with
  | None | Some "" => ∅                          (* not self.fhir_version *)
  | Some fhir_version =>
      let major_version := split_dot_head fhir_version in
      {[ "Content-Type" :=
           "application/fhir+json; fhirVersion=" +:+ major_version +:+ ".0" ]}
  end.

Definition _response_content (response : Response.t) : pyval :=
  match Response.json response with
  | Some resp_content => resp_content
  | None => PStr (Response.text response)
  end.

(** The comprehension [[issue for issue in ... if issue['severity'] == 'error']]:
    every item is subscripted, in order, before the list exists. *)
Fixpoint error_issues (issues : list pyval) : outcome (list pyval) :=
  match issues with
  | [] => Ok []
  | issue :: rest =>
      match py_getitem issue "severity" with
      | Raise e => Raise e
      | Ok severity =>
          match error_issues rest with
          | Raise e => Raise e
          | Ok errors =>
              Ok (if py_eq_str severity "error" then issue :: errors else errors)
          end
      end
  end.

Definition _errors_from_response (response_body : pyval) : outcome (list pyval) :=
  let response_body := if truthy response_body then response_body else PDict [] in
  match py_get response_body "issue" (PList []) with
  | Raise e => Raise e
  | Ok issue =>
      match py_iter issue with
      | Raise e => Raise e
      | Ok issues => error_issues issues
      end
  end.

Definition success_status : gmap string (gset Z) :=
  {[ "GET" := {[ 200 ]};
     "POST" := {[ 200; 201 ]};
     "PUT" := {[ 200; 201 ]};
     "DELETE" := {[ 204; 200 ]} ]}.

Definition send_request (E : env) (self : FhirApiClient)
    (request_method_name : string) (url : option string)
    (request_kwargs : kwargs) : M (bool * result) :=
  let request_kwargs :=
    match auth self with
    | Some a => {| kw_auth := Some a; kw_headers := kw_headers request_kwargs;
                   kw_json := kw_json request_kwargs |}
    | None => request_kwargs
    end in
  let headers := default ∅ (kw_headers request_kwargs) in
  let headers :=
    match headers !! "Content-Type" with
    | None => _fhir_version_headers self ∪ headers
    | Some _ => headers
    end in
  let request_kwargs :=
    {| kw_auth := kw_auth request_kwargs; kw_headers := Some headers;
       kw_json := kw_json request_kwargs |} in
  request_method <- lift (session_getattr (lower request_method_name)) ;;
  response <- session_request E (session self) request_method url request_kwargs ;;
  let resp_content := _response_content response in
  let request_method_name := upper request_method_name in
  let request_url := unquote E (Response.url response) in
  let result := {| res_status_code := Response.status_code response;
                   res_request_url := request_url;
                   res_response := resp_content |} in
  if bool_decide (Response.status_code response ∈
                    default ∅ (success_status !! request_method_name))
  then
    errors <- lift (_errors_from_response resp_content) ;;
    match errors with
    | [] =>
        log DEBUG (request_method_name +:+ " " +:+ request_url +:+
                   " succeeded. Response:" +:+ nl +:+ pformat E resp_content) ;;;
        ret (true, result)
    | _ :: _ =>
        log DEBUG (request_method_name +:+ " " +:+ request_url +:+
                   " failed. Caused by:" +:+ nl +:+ pformat E resp_content) ;;;
        ret (false, result)
    end
  else
    log DEBUG (request_method_name +:+ " " +:+ request_url +:+
               " failed, status " +:+ pretty (Response.status_code response) +:+
               ". Caused by:" +:+ nl +:+ pformat E resp_content) ;;;
    ret (false, result).

Definition post_or_put (E : env) (self : FhirApiClient)
    (endpoint : option string) (rd : resource_dict) (method : string)
    : M (bool * result) :=
  let filename := rd_filename rd in
  let resource := rd_content rd in
  let resource_type := rd_resource_type rd in
  log INFO (upper method +:+ "ing FHIR " +:+ resource_type +:+ " from " +:+
            filename) ;;;
  let request_kwargs :=
    {| kw_auth := None; kw_headers := None; kw_json := Some resource |} in
  r <- send_request E self method endpoint request_kwargs ;;
  let '(success, result) := r in
  (if success : bool
   then log INFO ("✅ " +:+ upper method +:+ " " +:+ filename +:+ " to " +:+
                  fmt_opt endpoint +:+ " succeeded")
   else log INFO ("❌ " +:+ upper method +:+ " " +:+ filename +:+ " to " +:+
                  fmt_opt endpoint +:+ " failed")) ;;;
  ret (success, result).

(** The [for rd in resource_dicts] loop of [post_or_put_all], from the
    state [(success, results)] it has reached. *)
Fixpoint post_or_put_each (E : env) (self : FhirApiClient)
    (resource_dicts : list resource_dict) (endpoint : option string)
    (method : string) (success : bool) (rs : results) : M (bool * results) :=
  match resource_dicts with
  | [] => ret (success, rs)
  | rd :: rest =>
      let filepath := rd_filepath rd in
      let ep := match rd_endpoint rd with Some e => Some e | None => endpoint end in
      r <- post_or_put E self ep rd method ;;
      let '(success_one, result) := r in
      let success := success_one && success in
      let rs :=
        if success_one
        then {| res_success := <[filepath := result]> (res_success rs);
                res_errors := res_errors rs |}
        else {| res_success := res_success rs;
                res_errors := <[filepath := result]> (res_errors rs) |} in
      post_or_put_each E self rest endpoint method success rs
  end.

Definition post_or_put_all (E : env) (self : FhirApiClient)
    (resource_dicts : list resource_dict) (endpoint : option string)
    (method : string) : M (bool * results) :=
  post_or_put_each E self resource_dicts endpoint method true
    {| res_success := ∅; res_errors := ∅ |}.

(** The [for entry in ...] loop of [delete_all], from the value of
    [success] it has reached. *)
Fixpoint delete_each (E : env) (self : FhirApiClient)
    (entries : list pyval) (auth : option credential) (success : bool)
    : M bool :=
  match entries with
  | [] => ret success
  | entry :: rest =>
      resource <- lift (py_getitem entry "resource") ;;
      resourceType <- lift (py_get resource "resourceType" PNone) ;;
      if py_eq_str resourceType "OperationOutcome"
      then delete_each E self rest auth success
      else
        rs <- lift (py_getitem entry "resource") ;;
        rs_type <- lift (py_getitem rs "resourceType") ;;
        rs_id <- lift (py_getitem rs "id") ;;
        let url := fmt_opt (base_url self) +:+ "/" +:+ py_str E rs_type +:+
                   "/" +:+ py_str E rs_id in
        log DEBUG ("Deleting " +:+ url) ;;;
        r <- send_request E self "delete" (Some url)
               {| kw_auth := auth; kw_headers := None; kw_json := None |} ;;
        let '(success_delete, _) := r in
        delete_each E self rest auth (success_delete && success)
  end.

Definition delete_all (E : env) (self : FhirApiClient)
    (endpoint : option string) (request_kwargs : kwargs) : M bool :=
  log INFO "Begin deleting resources ..." ;;;
  let request_kwargs :=
    match kw_auth request_kwargs with
    | Some _ => request_kwargs
    | None => {| kw_auth := auth self; kw_headers := kw_headers request_kwargs;
                 kw_json := kw_json request_kwargs |}
    end in
  r <- send_request E self "get" endpoint request_kwargs ;;
  let '(success, result) := r in
  let resp_content := res_response result in
  let request_url := res_request_url result in
  total <- lift (py_get resp_content "total" PNone) ;;
  log DEBUG ("Fetched " +:+ py_str E total +:+ " item(s) from " +:+
             request_url) ;;;
  if negb success then ret false
  else
    entry <- lift (py_get resp_content "entry" (PList [])) ;;
    entries <- lift (py_iter entry) ;;
    delete_each E self entries (kw_auth request_kwargs) success.

Definition check_service_status (E : env) (self : FhirApiClient)
    (exit_on_down : bool) (log_msg : option string) : M unit :=
  down <- utils.check_service_status E
            (if truthy_opt (status_endpoint self) then status_endpoint self
             else base_url self)
            false
            {| kw_auth := auth self;
               kw_headers := Some (_fhir_version_headers self);
               kw_json := None |} ;;
  if down : bool
  then
    log ERROR (fmt_opt log_msg) ;;;
    if exit_on_down : bool then exit 1 else ret tt
  else ret tt.

End client.

(** ** config.py *)

Module config.

(** What [fhir_version_name] can raise: the ValueError of [int], and its
    own Exception. *)
Inductive raised : Type :=
| ValueError (detail : string)
| Exception (msg : string).

Inductive returned (A : Type) : Type :=
| Return (a : A)
| Throw (e : raised).
Arguments Return {A} a.
Arguments Throw {A} e.

(** [int] is the builtin, applied to a [str]: a parameter here. *)
Definition fhir_version_name (int : string → returned Z) (fhir_version : string)
    : returned string :=
  match int (split_dot_head fhir_version) with
  | Throw e => Throw e
  | Return major_version =>
      if major_version <? 3 then Return "dstu2"
      else if (3 <=? major_version) && (major_version <? 4) then Return "stu3"
      else if (4 <=? major_version) && (major_version <? 5) then Return "r4"
      else Throw (Exception ("Invalid fhir version supplied: " +:+ fhir_version +:+
                             "! No name exists for the supplied fhir version."))
  end.

Definition FHIR_VERSION : string := "4.0.0".

Definition FHIR_VERSION_NAME (int : string → returned Z) : returned string :=
  fhir_version_name int FHIR_VERSION.

End config.

(** * Vocabulary of the statements *)

Import client.

(** ** Classification *)

(** The accepted status codes of a method, by its upper-case name. *)
Definition accepted_status (method : string) (s : Z) : bool :=
  if String.eqb method "GET" then s =? 200
  else if String.eqb method "POST" then (s =? 200) || (s =? 201)
  else if String.eqb method "PUT" then (s =? 200) || (s =? 201)
  else if String.eqb method "DELETE" then (s =? 200) || (s =? 204)
  else false.

(** An issue entry that is an object with a severity member, and one whose
    severity is "error". *)
Definition carries_severity (issue : pyval) : bool :=
  match issue with
  | PDict d => bool_decide (is_Some (dict_lookup "severity" d))
  | _ => false
  end.

Definition is_error_issue (issue : pyval) : bool :=
  match issue with
  | PDict d =>
      match dict_lookup "severity" d with
      | Some (PStr s) => String.eqb s "error"
      | _ => false
      end
  | _ => false
  end.

Definition is_object (v : pyval) : bool :=
  match v with
  | PDict _ => true
  | _ => false
  end.

(** The issue entries of a body: none for an empty body (empty text, [{}],
    [null]) and for an object without an 'issue' member, the items of the
    'issue' list otherwise. Bodies of any other shape have no entries to
    speak of. *)
Inductive issue_entries : pyval → list pyval → Prop :=
| issue_entries_empty body :
    truthy body = false → issue_entries body []
| issue_entries_absent d :
    dict_lookup "issue" d = None → issue_entries (PDict d) []
| issue_entries_list d issues :
    dict_lookup "issue" d = Some (PList issues) → issue_entries (PDict d) issues.

(** ** The request that goes out *)

(** The request [send_request] hands to the session (lemma
    [send_request_sends]). *)
Definition request_sent (self : FhirApiClient) (v : verb)
    (url : option string) (kw : kwargs) : request :=
  {| req_session := session self;
     req_verb := v;
     req_url := url;
     req_kwargs :=
       {| kw_auth := match auth self with Some a => Some a | None => kw_auth kw end;
          kw_headers :=
            Some (match default ∅ (kw_headers kw) !! "Content-Type" with
                  | None => _fhir_version_headers self ∪ default ∅ (kw_headers kw)
                  | Some _ => default ∅ (kw_headers kw)
                  end);
          kw_json := kw_json kw |} |}.

Definition result_of (E : env) (r : Response.t) : result :=
  {| res_status_code := Response.status_code r;
     res_request_url := unquote E (Response.url r);
     res_response := _response_content r |}.

Definition after_request (w : world) (rq : request) : world :=
  {| sent := sent w ++ [rq]; logged := logged w |}.

(** ** The status probe *)

(** The one request of the probe: a GET through a fresh session whose
    retry policy has a total of 1. *)
Definition probe_request (url : option string) (kw : kwargs) : request :=
  {| req_session := utils.requests_retry_session None 1 10 1 10 5
                      [500; 502; 503; 504];
     req_verb := GET;
     req_url := url;
     req_kwargs := kw |}.

(** What the transport made of the probe: down is a connection error or a
    status of 300 and above, up is a status below 300. *)
Definition is_down (a : outcome Response.t) : Prop :=
  (∃ detail, a = Raise (ConnectionError detail)) ∨
  (∃ r, a = Ok r ∧ 300 ≤ Response.status_code r).




(** ** Bulk write *)

(** The endpoint of an item: its own, or else that of the batch. *)
Definition item_endpoint (rd : resource_dict) (endpoint : option string)
    : option string :=
  match rd_endpoint rd with
  | Some e => Some e
  | None => endpoint
  end.

(** [items_run w rds os w']: from [w], the items [rds] are posted one
    after the other, each call of [post_or_put] returns, with the outcomes
    [os], and the world is then [w']. *)
Inductive items_run (E : env) (self : FhirApiClient)
    (endpoint : option string) (method : string)
    : world → list resource_dict → list (bool * result) → world → Prop :=
| items_run_nil w :
    items_run E self endpoint method w [] [] w
| items_run_cons w rd rds o os w1 w2 :
    post_or_put E self (item_endpoint rd endpoint) rd method w = (Ok o, w1) →
    items_run E self endpoint method w1 rds os w2 →
    items_run E self endpoint method w (rd :: rds) (o :: os) w2.

(** An item is filed under its filepath in the mapping its outcome names,
    and is absent from the other. *)
Definition filed (rs : results) (rd : resource_dict) (o : bool * result) : Prop :=
  if o.1
  then res_success rs !! rd_filepath rd = Some o.2 ∧
       res_errors rs !! rd_filepath rd = None
  else res_success rs !! rd_filepath rd = None ∧
       res_errors rs !! rd_filepath rd = Some o.2.

(** The number of items that failed, and that succeeded. *)
Definition failures (os : list (bool * result)) : nat :=
  length (List.filter (λ o, negb o.1) os).

Definition successes (os : list (bool * result)) : nat :=
  length (List.filter (λ o : bool * result, o.1) os).

(** What a mapping of the batch result holds under the key [k] once the
    items [rds] have been filed with the outcomes [os]: the result of the
    last item whose filepath is [k] and whose classification is [outcome]
    ([true] for the successes, [false] for the failures); nothing when
    there is no such item. *)
Fixpoint last_filed (outcome : bool) (k : string) (rds : list resource_dict)
    (os : list (bool * result)) : option result :=
  match rds, os with
  | rd :: rds', o :: os' =>
      match last_filed outcome k rds' os' with
      | Some r => Some r
      | None =>
          if bool_decide (rd_filepath rd = k) && Bool.eqb o.1 outcome
          then Some o.2
          else None
      end
  | _, _ => None
  end.

(** ** Fetch, then delete each *)

(** The world once [delete_all] has announced itself, and the keyword
    arguments of its fetch. *)
Definition begun (w : world) : world :=
  {| sent := sent w;
     logged := logged w ++ [(INFO, "Begin deleting resources ...")] |}.

Definition fetch_kwargs (self : FhirApiClient) (kw : kwargs) : kwargs :=
  match kw_auth kw with
  | Some _ => kw
  | None => {| kw_auth := auth self; kw_headers := kw_headers kw;
               kw_json := kw_json kw |}
  end.

(** The world once the fetched collection has been reported in the log. *)
Definition fetched (E : env) (res : result) (d : list (string * pyval))
    (w : world) : world :=
  {| sent := sent w;
     logged := logged w ++
       [(DEBUG, "Fetched " +:+ py_str E (default PNone (dict_lookup "total" d)) +:+
                " item(s) from " +:+ res_request_url res)] |}.

Definition delete_url (E : env) (self : FhirApiClient) (rs_type rs_id : pyval)
    : string :=
  fmt_opt (base_url self) +:+ "/" +:+ py_str E rs_type +:+ "/" +:+ py_str E rs_id.

(** What an entry of the collection asks for: nothing when its resource is
    an OperationOutcome, a DELETE of [base_url/resourceType/id] of its
    resource otherwise. [None] is for an entry without a resource, or with
    a resource that lacks its type or its id. *)
Definition entry_target (E : env) (self : FhirApiClient) (entry : pyval)
    : option (option string) :=
  match entry with
  | PDict e =>
      match dict_lookup "resource" e with
      | Some (PDict rs) =>
          match dict_lookup "resourceType" rs with
          | Some rs_type =>
              if py_eq_str rs_type "OperationOutcome" then Some None
              else
                match dict_lookup "id" rs with
                | Some rs_id => Some (Some (delete_url E self rs_type rs_id))
                | None => None
                end
          | None => None
          end
      | _ => None
      end
  | _ => None
  end.

Fixpoint delete_targets (E : env) (self : FhirApiClient) (entries : list pyval)
    : option (list string) :=
  match entries with
  | [] => Some []
  | entry :: rest =>
      match entry_target E self entry, delete_targets E self rest with
      | Some None, Some urls => Some urls
      | Some (Some url), Some urls => Some (url :: urls)
      | _, _ => None
      end
  end.

Definition delete_kwargs (auth : option credential) : kwargs :=
  {| kw_auth := auth; kw_headers := None; kw_json := None |}.

Definition deleting (url : string) (w : world) : world :=
  {| sent := sent w; logged := logged w ++ [(DEBUG, "Deleting " +:+ url)] |}.

(** [deletes_run w urls os w']: from [w], a DELETE is sent to each of
    [urls] in turn, each is classified, with the outcomes [os], and the
    world is then [w']. *)
Inductive deletes_run (E : env) (self : FhirApiClient)
    (auth : option credential)
    : world → list string → list bool → world → Prop :=
| deletes_run_nil w :
    deletes_run E self auth w [] [] w
| deletes_run_cons w url urls o res os w1 w2 :
    send_request E self "delete" (Some url) (delete_kwargs auth) (deleting url w)
      = (Ok (o, res), w1) →
    deletes_run E self auth w1 urls os w2 →
    deletes_run E self auth w (url :: urls) (o :: os) w2.

(** ** Concrete inputs *)

(** A remote end that plays back a script: the n-th request sent gets the
    n-th answer. *)
Definition scripted (answers : list (outcome Response.t)) : env :=
  {| remote := λ history _,
       nth (length history) answers (Raise (RequestException "no answer"));
     unquote := λ s, s;
     pformat := λ _, "<body>";
     repr := λ _, "<object>" |}.

Definition fresh : world := {| sent := []; logged := [] |}.

Definition demo_client : FhirApiClient :=
  __init__ (Some "http://localhost:8000") None (Some FHIR_VERSION) None.

Definition answer (status : Z) (text : string) (json : option pyval)
    : outcome Response.t :=
  Ok {| Response.status_code := status;
        Response.url := "http://localhost:8000/Patient";
        Response.text := text;
        Response.json := json |}.

(** A resource item read from the file [filepath]. *)
Definition item (filepath : string) : resource_dict :=
  {| rd_content := PDict [("resourceType", PStr "Patient")];
     rd_resource_type := "Patient";
     rd_filename := filepath;
     rd_filepath := filepath;
     rd_endpoint := None |}.

(** A search result of three entries, the second one an OperationOutcome. *)
Definition bundle_entry (resource_type : string) (rs_id : string) : pyval :=
  PDict [("fullUrl", PStr ("http://localhost:8000/" +:+ resource_type +:+ "/" +:+ rs_id));
         ("resource", PDict [("resourceType", PStr resource_type);
                             ("id", PStr rs_id)])].

Definition bundle : list (string * pyval) :=
  [("resourceType", PStr "Bundle");
   ("total", PInt 2);
   ("entry", PList [bundle_entry "Patient" "1";
                    bundle_entry "OperationOutcome" "warn";
                    bundle_entry "Patient" "2"])].

(** ** Further vocabulary *)

(** A string of ASCII characters only, where [upper] and [lower] are
    Python's [str.upper] and [str.lower]. *)
Fixpoint is_ascii (s : string) : bool :=
  match s with
  | EmptyString => true
  | String c s' => (N_of_ascii c <? 128)%N && is_ascii s'
  end.

(** The keyword arguments [post_or_put] starts from for an item, and the
    request that comes of them. *)
Definition item_kwargs (rd : resource_dict) : kwargs :=
  {| kw_auth := None; kw_headers := None; kw_json := Some (rd_content rd) |}.

Definition item_request (self : FhirApiClient) (v : verb)
    (endpoint : option string) (rd : resource_dict) : request :=
  request_sent self v (item_endpoint rd endpoint) (item_kwargs rd).

(** The DELETE request for a target of the cascade. *)
Definition delete_request (self : FhirApiClient) (auth : option credential)
    (url : string) : request :=
  request_sent self DELETE (Some url) (delete_kwargs auth).

(** The entries of a fetched body, as the loop of [delete_all] draws them:
    the items of its 'entry' list, none when it has no such member. *)
Definition body_entries (body : pyval) : list pyval :=
  match body with
  | PDict d =>
      match dict_lookup "entry" d with
      | Some (PList entries) => entries
      | _ => []
      end
  | _ => []
  end.

(** The bodies the issue scan can read: an empty body, or an object whose
    'issue' member is absent, empty, or a list of objects that each carry
    a severity; and the entries it then reads. *)
Definition scannable (body : pyval) : bool :=
  if truthy body
  then match body with
       | PDict d =>
           match dict_lookup "issue" d with
           | None => true
           | Some (PList issues) => forallb carries_severity issues
           | Some (PStr s) => String.eqb s ""
           | Some (PDict d') => match d' with [] => true | _ => false end
           | Some _ => false
           end
       | _ => false
       end
  else true.

Definition listed_issues (body : pyval) : list pyval :=
  match body with
  | PDict d =>
      match dict_lookup "issue" d with
      | Some (PList issues) => issues
      | _ => []
      end
  | _ => []
  end.

(** * Properties *)

(** ** The monad *)

Ltac run := unfold bind, lift, ret, raise, exit, log, session_request; simpl.

Lemma bind_ok {A B} (m : M A) (k : A → M B) w a w' :
  m w = (Ok a, w') → bind m k w = k a w'.
Proof. intros H. unfold bind. by rewrite H. Qed.

Lemma bind_raise {A B} (m : M A) (k : A → M B) w e w' :
  m w = (Raise e, w') → bind m k w = (Raise e, w').
Proof. intros H. unfold bind. by rewrite H. Qed.

Lemma bind_inv_ok {A B} (m : M A) (k : A → M B) w b w2 :
  bind m k w = (Ok b, w2) → ∃ a w1, m w = (Ok a, w1) ∧ k a w1 = (Ok b, w2).
Proof.
  unfold bind. destruct (m w) as [[a|e] w1]; intros H; [eauto | discriminate].
Qed.

(** ** The status table and the issue scan *)

Ltac status_cases :=
  apply eq_true_iff_eq;
  rewrite bool_decide_eq_true, ?orb_true_iff, ?Z.eqb_eq,
    ?elem_of_union, ?elem_of_singleton;
  tauto.

Lemma success_status_accepts (method : string) (s : Z) :
  bool_decide (s ∈ default ∅ (success_status !! method)) = accepted_status method s.
Proof.
  unfold accepted_status, success_status.
  destruct (String.eqb_spec method "GET") as [->|Hg].
  { rewrite lookup_insert_eq. simpl. status_cases. }
  rewrite lookup_insert_ne by done.
  destruct (String.eqb_spec method "POST") as [->|Hpo].
  { rewrite lookup_insert_eq. simpl. status_cases. }
  rewrite lookup_insert_ne by done.
  destruct (String.eqb_spec method "PUT") as [->|Hpu].
  { rewrite lookup_insert_eq. simpl. status_cases. }
  rewrite lookup_insert_ne by done.
  destruct (String.eqb_spec method "DELETE") as [->|Hd].
  { rewrite lookup_singleton_eq. simpl. status_cases. }
  rewrite lookup_singleton_ne by done. simpl.
  apply bool_decide_eq_false_2. apply not_elem_of_empty.
Qed.

Lemma error_issues_total (issues : list pyval) :
  forallb carries_severity issues = true →
  error_issues issues = Ok (List.filter is_error_issue issues).
Proof.
  induction issues as [|issue rest IH]; simpl; [done|].
  intros [Hi Hrest]%andb_prop. rewrite (IH Hrest).
  destruct issue as [| | | | | |d]; try discriminate. simpl in *.
  apply bool_decide_eq_true_1 in Hi as [severity Hs]. rewrite Hs.
  destruct severity; reflexivity.
Qed.

Lemma error_issues_raises (issues : list pyval) :
  forallb carries_severity issues = false →
  ∃ e, error_issues issues = Raise e ∧
       (forallb is_object issues = true → e = KeyError "severity").
Proof.
  induction issues as [|issue rest IH]; simpl; [discriminate|].
  destruct (carries_severity issue) eqn:Hi; simpl.
  - intros Hrest. destruct (IH Hrest) as (e & He & Hobj).
    destruct issue as [| | | | | |d]; try discriminate. simpl in *.
    apply bool_decide_eq_true_1 in Hi as [severity Hs]. rewrite Hs, He.
    eauto.
  - intros _. destruct issue as [| | | | | |d]; simpl; try (eexists; split; [reflexivity | discriminate]).
    apply bool_decide_eq_false_1 in Hi.
    destruct (dict_lookup "severity" d) eqn:Hs; [by destruct Hi|].
    eauto.
Qed.

Lemma errors_from_issue_entries (body : pyval) (issues : list pyval) :
  issue_entries body issues →
  _errors_from_response body = error_issues issues.
Proof.
  unfold _errors_from_response. destruct 1 as [body Hf|d Hn|d issues Hl].
  - by rewrite Hf.
  - destruct (truthy (PDict d)); simpl; [by rewrite Hn | done].
  - assert (truthy (PDict d) = true) as -> by (destruct d; [discriminate | done]).
    simpl. by rewrite Hl.
Qed.

Lemma filter_nil_existsb {A} (p : A → bool) (l : list A) :
  List.filter p l = [] ↔ existsb p l = false.
Proof.
  induction l as [|a l IH]; simpl; [done|].
  destruct (p a); simpl; [split; discriminate | done].
Qed.

(** ** One request *)

Section send_request.
Context (E : env) (self : FhirApiClient).
Context (m : string) (url : option string) (kw : kwargs) (w : world) (v : verb).
Hypothesis dispatch : session_getattr (lower m) = Ok v.

Let rq := request_sent self v url kw.

Local Ltac open_send_request :=
  unfold send_request; rewrite dispatch;
  subst rq; unfold request_sent, after_request in *; run;
  destruct (auth self); simpl in *.

Lemma send_request_transport_raises e :
  remote E (sent w) rq = Raise e →
  send_request E self m url kw w = (Raise e, after_request w rq).
Proof.
  intros Hr. open_send_request; by rewrite Hr.
Qed.

Lemma send_request_rejected r :
  remote E (sent w) rq = Ok r →
  accepted_status (upper m) (Response.status_code r) = false →
  ∃ w', send_request E self m url kw w = (Ok (false, result_of E r), w') ∧
        sent w' = sent w ++ [rq].
Proof.
  intros Hr Ha.
  open_send_request; rewrite Hr, success_status_accepts, Ha; eauto.
Qed.

Lemma send_request_scanned r errors :
  remote E (sent w) rq = Ok r →
  accepted_status (upper m) (Response.status_code r) = true →
  _errors_from_response (_response_content r) = Ok errors →
  ∃ w', send_request E self m url kw w =
          (Ok (bool_decide (errors = []), result_of E r), w') ∧
        sent w' = sent w ++ [rq].
Proof.
  intros Hr Ha He.
  open_send_request; rewrite Hr, success_status_accepts, Ha, He;
    destruct errors; eauto.
Qed.

Lemma send_request_scan_raises r e :
  remote E (sent w) rq = Ok r →
  accepted_status (upper m) (Response.status_code r) = true →
  _errors_from_response (_response_content r) = Raise e →
  send_request E self m url kw w = (Raise e, after_request w rq).
Proof.
  intros Hr Ha He.
  open_send_request; by rewrite Hr, success_status_accepts, Ha, He.
Qed.

(** Whatever comes of it, exactly one request goes out. *)
Lemma send_request_sends o w' :
  send_request E self m url kw w = (o, w') → sent w' = sent w ++ [rq].
Proof.
  destruct (remote E (sent w) rq) as [r|e] eqn:Hr.
  - destruct (accepted_status (upper m) (Response.status_code r)) eqn:Ha.
    + destruct (_errors_from_response (_response_content r)) as [errors|e] eqn:He.
      * destruct (send_request_scanned r errors Hr Ha He) as (w1 & -> & Hs).
        by intros [= _ <-].
      * rewrite (send_request_scan_raises r e Hr Ha He). by intros [= _ <-].
    + destruct (send_request_rejected r Hr Ha) as (w1 & -> & Hs).
      by intros [= _ <-].
  - rewrite (send_request_transport_raises e Hr). by intros [= _ <-].
Qed.

(** A returned classification comes from an answer of the remote end. *)
Lemma send_request_returns b res w' :
  send_request E self m url kw w = (Ok (b, res), w') →
  ∃ r, remote E (sent w) rq = Ok r ∧ res = result_of E r ∧
       sent w' = sent w ++ [rq].
Proof.
  intros H. pose proof (send_request_sends _ _ H) as Hs. revert H.
  destruct (remote E (sent w) rq) as [r|e] eqn:Hr.
  - destruct (accepted_status (upper m) (Response.status_code r)) eqn:Ha.
    + destruct (_errors_from_response (_response_content r)) as [errors|e] eqn:He.
      * destruct (send_request_scanned r errors Hr Ha He) as (w1 & -> & _).
        intros [= _ <- _]. eauto.
      * by rewrite (send_request_scan_raises r e Hr Ha He).
    + destruct (send_request_rejected r Hr Ha) as (w1 & -> & _).
      intros [= _ <- _]. eauto.
  - by rewrite (send_request_transport_raises e Hr).
Qed.
End send_request.

Lemma send_request_no_such_method E self m url kw w e :
  session_getattr (lower m) = Raise e →
  send_request E self m url kw w = (Raise e, w).
Proof. intros Hd. unfold send_request. rewrite Hd. run. by destruct (auth self). Qed.

(** ** Concrete runs *)

(** Scenarios A, B and C of the specification. *)
Example scenario_A :
  fst (send_request (scripted [answer 201 "{}" (Some (PDict []))]) demo_client
         "post" (Some "http://localhost:8000/Patient") no_kwargs fresh)
  = Ok (true, {| res_status_code := 201;
                 res_request_url := "http://localhost:8000/Patient";
                 res_response := PDict [] |}).
Proof. reflexivity. Qed.

Example scenario_B :
  let body := PDict [("issue", PList [PDict [("severity", PStr "error");
                                            ("code", PStr "invalid")]])] in
  fst (send_request (scripted [answer 200 "..." (Some body)]) demo_client
         "post" (Some "http://localhost:8000/Patient") no_kwargs fresh)
  = Ok (false, {| res_status_code := 200;
                  res_request_url := "http://localhost:8000/Patient";
                  res_response := body |}).
Proof. reflexivity. Qed.

Example scenario_C :
  fst (send_request (scripted [answer 204 "" None]) demo_client
         "delete" (Some "http://localhost:8000/Patient/1") no_kwargs fresh)
  = Ok (true, {| res_status_code := 204;
                 res_request_url := "http://localhost:8000/Patient";
                 res_response := PStr "" |}).
Proof. reflexivity. Qed.

(** ** Classification of one request *)

(** C1, counterexample: a GET answered
    with 200 and a body whose only issue entry has no severity. The body
    holds no issue entry of severity "error" and 200 is accepted for GET,
    yet the operation is not classified as success: the scan raises. *)
Lemma C1_counterexample :
  let issues := [PDict [("code", PStr "invalid")]] in
  let body := PDict [("issue", PList issues)] in
  existsb is_error_issue issues = false ∧
  accepted_status "GET" 200 = true ∧
  fst (send_request (scripted [answer 200 "..." (Some body)]) demo_client
         "get" (Some "http://localhost:8000/Patient") no_kwargs fresh)
  = Raise (KeyError "severity").
Proof. repeat split; reflexivity. Qed.

(** C1 (amended). Let the session offer method [m] and the remote end
    answer with status [s] and a body that is empty or an object whose
    'issue' member, if present, is a list of objects that each carry a
    severity. Then [send_request] returns, and:
    - if no issue entry has severity "error", the operation is classified
      as success exactly when [s] is accepted for [m] (GET: 200; POST and
      PUT: 200, 201; DELETE: 200, 204);
    - if [s] is accepted and some issue entry has severity "error", it is
      classified as failure.
    For a method outside these four it is classified as failure whatever
    the status code and the body. *)
Theorem C1_send_request_classification
    (E : env) (self : FhirApiClient) (m : string) (url : option string)
    (kw : kwargs) (w : world) (v : verb) (r : Response.t) :
  session_getattr (lower m) = Ok v →
  remote E (sent w) (request_sent self v url kw) = Ok r →
  let s := Response.status_code r in
  (∀ issues,
     issue_entries (_response_content r) issues →
     forallb carries_severity issues = true →
     (existsb is_error_issue issues = false →
      ∃ w', send_request E self m url kw w =
              (Ok (accepted_status (upper m) s, result_of E r), w')) ∧
     (accepted_status (upper m) s = true →
      existsb is_error_issue issues = true →
      ∃ w', send_request E self m url kw w = (Ok (false, result_of E r), w'))) ∧
  (upper m ∉ ["GET"; "POST"; "PUT"; "DELETE"] →
   ∃ w', send_request E self m url kw w = (Ok (false, result_of E r), w')).
Proof.
  intros Hd Hr s. split.
  - intros issues Hentries Hsev.
    pose proof (errors_from_issue_entries _ _ Hentries) as Hscan.
    rewrite (error_issues_total _ Hsev) in Hscan.
    split.
    + intros Hnone. destruct (accepted_status (upper m) s) eqn:Ha.
      * destruct (send_request_scanned E self m url kw w v Hd r _ Hr Ha Hscan)
          as (w' & Hrun & _).
        exists w'. rewrite Hrun. apply filter_nil_existsb in Hnone.
        by rewrite bool_decide_eq_true_2.
      * destruct (send_request_rejected E self m url kw w v Hd r Hr Ha)
          as (w' & Hrun & _).
        eauto.
    + intros Ha Hsome.
      destruct (send_request_scanned E self m url kw w v Hd r _ Hr Ha Hscan)
        as (w' & Hrun & _).
      exists w'. rewrite Hrun. rewrite bool_decide_eq_false_2; [done|].
      intros Hnil%filter_nil_existsb. congruence.
  - intros Hother.
    assert (accepted_status (upper m) s = false) as Ha.
    { unfold accepted_status.
      repeat match goal with
             | |- context [String.eqb ?a ?b] =>
                 destruct (String.eqb_spec a b) as [Heq|_];
                 [exfalso; apply Hother; rewrite Heq; set_solver|]
             end.
      done. }
    destruct (send_request_rejected E self m url kw w v Hd r Hr Ha)
      as (w' & Hrun & _).
    eauto.
Qed.

(** C1 at work: a PUT answered with 201 and a warning is a success. *)
Lemma C1_witness :
  let body := PDict [("issue", PList [PDict [("severity", PStr "warning")]])] in
  ∃ w', send_request (scripted [answer 201 "..." (Some body)]) demo_client
          "PUT" (Some "http://localhost:8000/Patient/1") no_kwargs fresh
        = (Ok (true, result_of (scripted [answer 201 "..." (Some body)]) {|
                 Response.status_code := 201;
                 Response.url := "http://localhost:8000/Patient";
                 Response.text := "...";
                 Response.json := Some body |}), w').
Proof.
  intros body.
  refine (proj1 (proj1 (C1_send_request_classification
            (scripted [answer 201 "..." (Some body)]) demo_client "PUT"
            (Some "http://localhost:8000/Patient/1") no_kwargs fresh PUT _
            eq_refl eq_refl)
          [PDict [("severity", PStr "warning")]] _ eq_refl) eq_refl).
  by apply issue_entries_list.
Defined.

(** C10. Let the remote end answer with an accepted status and a parsed
    body that has an 'issue' list. If every entry of the list carries a
    severity, [send_request] returns a classified result. If some entry
    does not, [send_request] returns nothing: the scan raises, after the
    request has gone out, and what it raises is KeyError('severity') when
    the entries are objects. *)
Theorem C10_issue_entries_need_severity
    (E : env) (self : FhirApiClient) (m : string) (url : option string)
    (kw : kwargs) (w : world) (v : verb) (r : Response.t)
    (d : list (string * pyval)) (issues : list pyval) :
  session_getattr (lower m) = Ok v →
  remote E (sent w) (request_sent self v url kw) = Ok r →
  accepted_status (upper m) (Response.status_code r) = true →
  Response.json r = Some (PDict d) →
  dict_lookup "issue" d = Some (PList issues) →
  (forallb carries_severity issues = true →
   ∃ b w', send_request E self m url kw w = (Ok (b, result_of E r), w')) ∧
  (forallb carries_severity issues = false →
   ∃ e, send_request E self m url kw w =
          (Raise e, after_request w (request_sent self v url kw)) ∧
        (forallb is_object issues = true → e = KeyError "severity")).
Proof.
  intros Hd Hr Ha Hjson Hissue.
  assert (issue_entries (_response_content r) issues) as Hentries.
  { unfold _response_content. rewrite Hjson. by apply issue_entries_list. }
  pose proof (errors_from_issue_entries _ _ Hentries) as Hscan.
  split; intros Hsev.
  - rewrite (error_issues_total _ Hsev) in Hscan.
    destruct (send_request_scanned E self m url kw w v Hd r _ Hr Ha Hscan)
      as (w' & Hrun & _).
    eauto.
  - destruct (error_issues_raises _ Hsev) as (e & He & Hkey).
    rewrite He in Hscan. exists e. split; [|done].
    by apply send_request_scan_raises with (r := r).
Qed.

(** C10 at work: the second entry has no severity. *)
Lemma C10_witness :
  let issues := [PDict [("severity", PStr "warning")];
                 PDict [("diagnostics", PStr "no severity here")]] in
  let E := scripted [answer 200 "..." (Some (PDict [("issue", PList issues)]))] in
  ∃ e, send_request E demo_client "post" (Some "http://localhost:8000/Patient")
         no_kwargs fresh
       = (Raise e, after_request fresh
                     (request_sent demo_client POST
                        (Some "http://localhost:8000/Patient") no_kwargs)) ∧
       (forallb is_object issues = true → e = KeyError "severity").
Proof.
  intros issues E.
  exact (proj2 (C10_issue_entries_need_severity E demo_client "post"
                  (Some "http://localhost:8000/Patient") no_kwargs fresh POST _
                  [("issue", PList issues)] issues
                  eq_refl eq_refl eq_refl eq_refl eq_refl) eq_refl).
Defined.

(** C2. Let the body of the answer fail JSON parsing. When the status is
    not accepted, [send_request] returns failure with the raw text as the
    response; when the status is accepted and the text is empty, it
    returns success with the (empty) raw text. When the status is accepted
    and the text is not empty, it does not return: the issue scan calls
    [get] on the text and AttributeError is raised. *)
Theorem C2_raw_text_body
    (E : env) (self : FhirApiClient) (m : string) (url : option string)
    (kw : kwargs) (w : world) (v : verb) (r : Response.t) :
  session_getattr (lower m) = Ok v →
  remote E (sent w) (request_sent self v url kw) = Ok r →
  Response.json r = None →
  res_response (result_of E r) = PStr (Response.text r) ∧
  (accepted_status (upper m) (Response.status_code r) = false →
   ∃ w', send_request E self m url kw w = (Ok (false, result_of E r), w')) ∧
  (accepted_status (upper m) (Response.status_code r) = true →
   Response.text r = "" →
   ∃ w', send_request E self m url kw w = (Ok (true, result_of E r), w')) ∧
  (accepted_status (upper m) (Response.status_code r) = true →
   Response.text r ≠ "" →
   send_request E self m url kw w =
     (Raise (AttributeError "str" "get"),
      after_request w (request_sent self v url kw))).
Proof.
  intros Hd Hr Hjson.
  assert (_response_content r = PStr (Response.text r)) as Hbody.
  { unfold _response_content. by rewrite Hjson. }
  split; [done|]. split; [|split].
  - intros Ha.
    destruct (send_request_rejected E self m url kw w v Hd r Hr Ha)
      as (w' & Hrun & _).
    eauto.
  - intros Ha Hempty.
    assert (_errors_from_response (_response_content r) = Ok []) as Hscan.
    { rewrite Hbody, Hempty. reflexivity. }
    destruct (send_request_scanned E self m url kw w v Hd r _ Hr Ha Hscan)
      as (w' & Hrun & _).
    eauto.
  - intros Ha Hfull. apply send_request_scan_raises with (r := r); try done.
    rewrite Hbody. destruct (Response.text r); [done | reflexivity].
Qed.

(** C2 at work: a POST answered with 200 and the text OK. *)
Lemma C2_witness :
  let E := scripted [answer 200 "OK" None] in
  send_request E demo_client "post" (Some "http://localhost:8000/Patient")
    no_kwargs fresh
  = (Raise (AttributeError "str" "get"),
     after_request fresh
       (request_sent demo_client POST (Some "http://localhost:8000/Patient")
          no_kwargs)).
Proof.
  intros E.
  refine (proj2 (proj2 (proj2 (C2_raw_text_body E demo_client "post"
            (Some "http://localhost:8000/Patient") no_kwargs fresh POST _
            eq_refl eq_refl eq_refl))) eq_refl _).
  discriminate.
Defined.

(** ** The request that goes out *)

(** C5. The request [send_request] sends carries the client-level
    credential whenever the client has one, whatever credential the call
    supplies; the credential of the call is used only by a client that has
    none. *)
Theorem C5_client_credential_overrides
    (E : env) (self : FhirApiClient) (m : string) (url : option string)
    (kw : kwargs) (w : world) (v : verb) (o : outcome (bool * result))
    (w' : world) :
  session_getattr (lower m) = Ok v →
  send_request E self m url kw w = (o, w') →
  ∃ rq, sent w' = sent w ++ [rq] ∧
        (∀ c, auth self = Some c → kw_auth (req_kwargs rq) = Some c) ∧
        (auth self = None → kw_auth (req_kwargs rq) = kw_auth kw).
Proof.
  intros Hd Hrun. exists (request_sent self v url kw).
  split; [by eapply send_request_sends|].
  simpl. split; [intros c Hc | intros Hc]; by rewrite Hc.
Qed.

(** C5 at work: the client holds one credential, the call brings another. *)
Lemma C5_witness :
  let E := scripted [answer 200 "{}" (Some (PDict []))] in
  let self := __init__ (Some "http://localhost:8000") (Some ("service", "pw"))
                (Some FHIR_VERSION) None in
  let kw := {| kw_auth := Some ("alice", "secret"); kw_headers := None;
               kw_json := None |} in
  ∃ rq, sent (send_request E self "get" (Some "http://localhost:8000/Patient")
                kw fresh).2 = sent fresh ++ [rq] ∧
        kw_auth (req_kwargs rq) = Some ("service", "pw").
Proof.
  intros E self kw.
  destruct (C5_client_credential_overrides E self "get"
              (Some "http://localhost:8000/Patient") kw fresh GET _ _
              eq_refl (surjective_pairing _))
    as (rq & Hsent & Hclient & _).
  exists rq. split; [exact Hsent | exact (Hclient _ eq_refl)].
Defined.

(** C8, counterexample: a client
    with no protocol version sends the request without any Content-Type
    header, and so does a client whose version is the empty string. *)
Lemma C8_counterexample :
  let E := scripted [answer 200 "{}" (Some (PDict []))] in
  let unversioned := __init__ (Some "http://localhost:8000") None None None in
  let empty_version :=
    __init__ (Some "http://localhost:8000") None (Some "") None in
  (∃ rq, sent (send_request E unversioned "get"
                 (Some "http://localhost:8000/Patient") no_kwargs fresh).2 = [rq] ∧
         kw_headers (req_kwargs rq) = Some ∅) ∧
  (∃ rq, sent (send_request E empty_version "get"
                 (Some "http://localhost:8000/Patient") no_kwargs fresh).2 = [rq] ∧
         kw_headers (req_kwargs rq) = Some ∅).
Proof. split; eexists; split; reflexivity. Qed.

(** C8 (amended). Let [supplied] be the headers of the call (none counts
    as empty), and consider the headers of the request that is sent.
    - If [supplied] has a 'Content-Type' key, they are [supplied],
      unchanged.
    - If it has none and the client is configured with a non-empty
      protocol version, they are [supplied] plus a Content-Type of
      'application/fhir+json; fhirVersion=<major>.0', <major> being the
      version up to its first dot.
    - If it has none and the client has no version, or an empty one, they
      are [supplied]: nothing is injected. *)
Theorem C8_content_type_header
    (E : env) (self : FhirApiClient) (m : string) (url : option string)
    (kw : kwargs) (w : world) (v : verb) (o : outcome (bool * result))
    (w' : world) :
  session_getattr (lower m) = Ok v →
  send_request E self m url kw w = (o, w') →
  let supplied : gmap string string := default ∅ (kw_headers kw) in
  ∃ rq headers,
    sent w' = sent w ++ [rq] ∧
    kw_headers (req_kwargs rq) = Some headers ∧
    (is_Some (supplied !! "Content-Type") → headers = supplied) ∧
    (supplied !! "Content-Type" = None →
     (∀ version, fhir_version self = Some version → version ≠ "" →
        headers = <[ "Content-Type" :=
                       "application/fhir+json; fhirVersion=" +:+
                       split_dot_head version +:+ ".0" ]> supplied) ∧
     (fhir_version self = None ∨ fhir_version self = Some "" →
        headers = supplied)).
Proof.
  intros Hd Hrun supplied.
  exists (request_sent self v url kw). eexists.
  split; [by eapply send_request_sends|]. split; [reflexivity|].
  fold supplied. split.
  - intros [ct Hct]. by rewrite Hct.
  - intros Hnone. rewrite Hnone. unfold _fhir_version_headers. split.
    + intros version Hv Hne. rewrite Hv.
      destruct version; [done|].
      by rewrite insert_union_singleton_l.
    + intros [Hv|Hv]; rewrite Hv; by rewrite (left_id_L ∅ (∪)).
Qed.

(** C8 at work: the headers of the call have no Content-Type, the client
    is at version 4.0.0. *)
Lemma C8_witness :
  let E := scripted [answer 200 "{}" (Some (PDict []))] in
  let kw := {| kw_auth := None;
               kw_headers := Some {[ "Accept" := "application/fhir+json" ]};
               kw_json := None |} in
  ∃ rq, sent (send_request E demo_client "get"
                (Some "http://localhost:8000/Patient") kw fresh).2 = [rq] ∧
        kw_headers (req_kwargs rq) =
          Some {[ "Content-Type" := "application/fhir+json; fhirVersion=4.0";
                  "Accept" := "application/fhir+json" ]}.
Proof.
  intros E kw.
  destruct (C8_content_type_header E demo_client "get"
              (Some "http://localhost:8000/Patient") kw fresh GET _ _
              eq_refl (surjective_pairing _))
    as (rq & headers & Hsent & Hheaders & _ & Hinject).
  exists rq. split; [exact Hsent|]. rewrite Hheaders.
  destruct (Hinject eq_refl) as [Hversion _].
  rewrite (Hversion FHIR_VERSION eq_refl); [reflexivity | discriminate].
Defined.

(** ** The status probe *)


Section probe.
Context (E : env) (url : option string) (exit_on_down : bool) (kw : kwargs).
Context (w : world).

Let a := remote E (sent w) (probe_request url kw).



End probe.







(** ** Bulk write *)

Lemma items_run_step E self endpoint method w rd rds o os w2 :
  (post_or_put E self (item_endpoint rd endpoint) rd method w).1 = Ok o →
  items_run E self endpoint method
    (post_or_put E self (item_endpoint rd endpoint) rd method w).2 rds os w2 →
  items_run E self endpoint method w (rd :: rds) (o :: os) w2.
Proof.
  destruct (post_or_put E self (item_endpoint rd endpoint) rd method w)
    as [o' w1] eqn:Hrun.
  simpl. intros -> Hrest. by eapply items_run_cons.
Qed.

Lemma items_run_length E self endpoint method w rds os w' :
  items_run E self endpoint method w rds os w' → length os = length rds.
Proof. induction 1; simpl; congruence. Qed.

Lemma post_or_put_each_returns E self endpoint method w rds os w' :
  items_run E self endpoint method w rds os w' →
  ∀ success rs,
    NoDup (map rd_filepath rds) →
    (∀ rd, rd ∈ rds → res_success rs !! rd_filepath rd = None ∧
                       res_errors rs !! rd_filepath rd = None) →
    ∃ rs',
      post_or_put_each E self rds endpoint method success rs w =
        (Ok (forallb fst os && success, rs'), w') ∧
      size (res_success rs') = (size (res_success rs) + successes os)%nat ∧
      size (res_errors rs') = (size (res_errors rs) + failures os)%nat ∧
      (∀ k, k ∉ map rd_filepath rds →
         res_success rs' !! k = res_success rs !! k ∧
         res_errors rs' !! k = res_errors rs !! k) ∧
      (∀ i rd o, rds !! i = Some rd → os !! i = Some o → filed rs' rd o).
Proof.
  induction 1 as [w|w rd rds o os w1 w2 Hone Hrest IH]; intros success rs Hnd Hfresh.
  - exists rs. simpl. unfold successes, failures. simpl.
    repeat split; try done; lia.
  - simpl in Hnd. apply NoDup_cons in Hnd as [Hnotin Hnd].
    destruct (Hfresh rd) as [Hs He]; [by constructor|].
    destruct o as [success_one result].
    set (rs1 := if success_one
                then {| res_success := <[rd_filepath rd := result]> (res_success rs);
                        res_errors := res_errors rs |}
                else {| res_success := res_success rs;
                        res_errors := <[rd_filepath rd := result]> (res_errors rs) |}).
    destruct (IH (success_one && success) rs1 Hnd) as (rs' & Hrun & Hss & Hse & Hother & Hfiled).
    { intros rd' Hin.
      assert (rd_filepath rd' ≠ rd_filepath rd) as Hne.
      { intros Heq. apply Hnotin. rewrite <- Heq. by apply list_elem_of_fmap_2. }
      destruct (Hfresh rd') as [Hs' He']; [by constructor|].
      subst rs1. destruct success_one; simpl; by rewrite ?lookup_insert_ne. }
    exists rs'. split; [|split; [|split; [|split]]].
    + simpl. unfold item_endpoint in Hone. rewrite (bind_ok _ _ _ _ _ Hone).
      fold rs1. rewrite Hrun. f_equal. f_equal.
      by destruct success_one, (forallb fst os), success.
    + rewrite Hss. subst rs1. unfold successes. destruct success_one; simpl; [|done].
      rewrite map_size_insert_None by done. lia.
    + rewrite Hse. subst rs1. unfold failures. destruct success_one; simpl; [done|].
      rewrite map_size_insert_None by done. lia.
    + intros k Hk. apply not_elem_of_cons in Hk as [Hne Hk].
      destruct (Hother k Hk) as [-> ->]. subst rs1.
      destruct success_one; simpl; by rewrite ?lookup_insert_ne.
    + intros [|i] rd' o'; simpl.
      * intros [= <-] [= <-]. destruct (Hother _ Hnotin) as [Hl1 Hl2].
        unfold filed. subst rs1. simpl in *.
        destruct success_one; simpl in *; rewrite Hl1, Hl2;
          by rewrite lookup_insert_eq.
      * apply Hfiled.
Qed.

(** C3, counterexample: two items that share a
    filepath, both created. Both are filed under the one key, so the two
    mappings hold one entry for two input items. *)
Lemma C3_counterexample :
  let E := scripted [answer 201 "{}" (Some (PDict []));
                     answer 201 "{}" (Some (PDict []))] in
  let rds := [item "a.json"; item "a.json"] in
  match post_or_put_all E demo_client rds
          (Some "http://localhost:8000/Patient") "post" fresh with
  | (Ok (success, rs), _) =>
      success = true ∧
      length rds = 2%nat ∧
      (size (res_success rs) + size (res_errors rs))%nat = 1%nat
  | (Raise _, _) => False
  end.
Proof. vm_compute. repeat split. Qed.

(** C3 (amended). Let the filepaths of the [N] input items be pairwise
    distinct, and let every item's [post_or_put] return, [k] of them with
    a failure. Then [post_or_put_all] returns; every item is filed, with
    its own result, in exactly one of the two mappings (successes if it
    succeeded, failures if it failed); the sizes of the two mappings add
    up to [N], the failures being [k]; and the overall success is true
    exactly when [k = 0]. *)
Theorem C3_batch_partition
    (E : env) (self : FhirApiClient) (endpoint : option string)
    (method : string) (w w' : world) (rds : list resource_dict)
    (os : list (bool * result)) :
  NoDup (map rd_filepath rds) →
  items_run E self endpoint method w rds os w' →
  ∃ success rs,
    post_or_put_all E self rds endpoint method w = (Ok (success, rs), w') ∧
    (∀ i rd o, rds !! i = Some rd → os !! i = Some o → filed rs rd o) ∧
    (size (res_success rs) + size (res_errors rs) = length rds)%nat ∧
    size (res_errors rs) = failures os ∧
    (success = true ↔ failures os = 0%nat).
Proof.
  intros Hnd Hrun.
  destruct (post_or_put_each_returns _ _ _ _ _ _ _ _ Hrun true
              {| res_success := ∅; res_errors := ∅ |} Hnd)
    as (rs & Heach & Hss & Hse & _ & Hfiled); [done|].
  exists (forallb fst os && true), rs. simpl in Hss, Hse.
  rewrite !map_size_empty in *. simpl in Hss, Hse.
  split; [exact Heach|]. split; [exact Hfiled|].
  split; [|split; [exact Hse|]].
  - rewrite Hss, Hse, <- (items_run_length _ _ _ _ _ _ _ _ Hrun).
    unfold successes, failures. clear. induction os as [|[[] ?] os IH]; simpl; lia.
  - rewrite andb_true_r. unfold failures. clear.
    induction os as [|[[] ?] os IH]; simpl; [done | done |].
    split; [discriminate | lia].
Qed.

(** C3 at work, on scenario E of the specification: three items, the
    second answered with status 400. *)
Lemma C3_witness :
  let E := scripted [answer 201 "{}" (Some (PDict []));
                     answer 400 "{}" (Some (PDict []));
                     answer 201 "{}" (Some (PDict []))] in
  let rds := [item "a.json"; item "b.json"; item "c.json"] in
  ∃ rs w', post_or_put_all E demo_client rds
             (Some "http://localhost:8000/Patient") "post" fresh
           = (Ok (false, rs), w') ∧
           size (res_success rs) = 2%nat ∧ size (res_errors rs) = 1%nat.
Proof.
  intros E rds.
  pose (ok := λ s, {| res_status_code := s;
                      res_request_url := "http://localhost:8000/Patient";
                      res_response := PDict [] |}).
  pose (os := [(true, ok 201); (false, ok 400); (true, ok 201)]).
  destruct (C3_batch_partition E demo_client
              (Some "http://localhost:8000/Patient") "post" fresh
              (post_or_put_all E demo_client rds
                 (Some "http://localhost:8000/Patient") "post" fresh).2
              rds os)
    as (success & rs & Hrun & _ & Hsum & Herr & Hall).
  { refine (bool_decide_unpack _ _). vm_compute. exact I. }
  { repeat (apply items_run_step; [reflexivity|]). apply items_run_nil. }
  assert (success = false) as ->.
  { destruct success; [|done]. by destruct (proj1 Hall eq_refl). }
  exists rs. eexists. split; [exact Hrun|]. change (failures os) with 1%nat in Herr.
  change (length rds) with 3%nat in Hsum. split; [lia | exact Herr].
Defined.

Lemma send_request_returns_sends E self m url kw w p w' :
  send_request E self m url kw w = (Ok p, w') →
  ∃ rq, sent w' = sent w ++ [rq].
Proof.
  intros Hrun. destruct (session_getattr (lower m)) as [v|e] eqn:Hd.
  - eexists. by eapply send_request_sends.
  - by rewrite (send_request_no_such_method _ _ _ _ _ _ _ Hd) in Hrun.
Qed.

Lemma post_or_put_sends E self endpoint rd method w o w' :
  post_or_put E self endpoint rd method w = (Ok o, w') →
  ∃ rq, sent w' = sent w ++ [rq].
Proof.
  unfold post_or_put.
  intros (? & w0 & [= <- <-] & Hrest)%bind_inv_ok.
  apply bind_inv_ok in Hrest as ([b res] & w1 & Hsend & Hrest).
  apply send_request_returns_sends in Hsend as [rq Hsent].
  exists rq. revert Hrest. run. destruct b; intros [= _ <-]; exact Hsent.
Qed.

Lemma items_run_sends E self endpoint method w rds os w' :
  items_run E self endpoint method w rds os w' →
  length (sent w') = (length (sent w) + length rds)%nat.
Proof.
  induction 1 as [w|w rd rds o os w1 w2 Hone Hrest IH]; simpl; [lia|].
  apply post_or_put_sends in Hone as [rq Hsent].
  rewrite IH, Hsent, length_app. simpl. lia.
Qed.

Lemma post_or_put_each_total E self endpoint method w rds os w' :
  items_run E self endpoint method w rds os w' →
  ∀ success rs,
    ∃ rs', post_or_put_each E self rds endpoint method success rs w =
             (Ok (forallb fst os && success, rs'), w').
Proof.
  induction 1 as [w|w rd rds [success_one result] os w1 w2 Hone Hrest IH];
    intros success rs; simpl; [by exists rs|].
  unfold item_endpoint in Hone. rewrite (bind_ok _ _ _ _ _ Hone).
  edestruct IH as [rs' ->]. exists rs'. f_equal. f_equal.
  by destruct success_one, (forallb fst os), success.
Qed.

Lemma post_or_put_each_raises E self endpoint method w pre os w1 :
  items_run E self endpoint method w pre os w1 →
  ∀ rd post e w2 success rs,
    post_or_put E self (item_endpoint rd endpoint) rd method w1 = (Raise e, w2) →
    post_or_put_each E self (pre ++ rd :: post) endpoint method success rs w =
      (Raise e, w2).
Proof.
  induction 1 as [w|w rd0 rds [success_one result] os w1 w2 Hone Hrest IH];
    intros rd post e w3 success rs Hraise; simpl.
  - unfold item_endpoint in Hraise. by rewrite (bind_raise _ _ _ _ _ Hraise).
  - unfold item_endpoint in Hone. rewrite (bind_ok _ _ _ _ _ Hone).
    by apply IH.
Qed.

(** The two mappings the loop leaves, key by key. *)
Lemma post_or_put_each_exact E self endpoint method w rds os w' :
  items_run E self endpoint method w rds os w' →
  ∀ success rs,
    ∃ rs',
      post_or_put_each E self rds endpoint method success rs w =
        (Ok (forallb fst os && success, rs'), w') ∧
      (∀ k, res_success rs' !! k =
              match last_filed true k rds os with
              | Some r => Some r
              | None => res_success rs !! k
              end) ∧
      (∀ k, res_errors rs' !! k =
              match last_filed false k rds os with
              | Some r => Some r
              | None => res_errors rs !! k
              end).
Proof.
  induction 1 as [w|w rd rds [success_one result] os w1 w2 Hone Hrest IH];
    intros success rs.
  - by exists rs.
  - set (rs1 := if success_one
                then {| res_success := <[rd_filepath rd := result]> (res_success rs);
                        res_errors := res_errors rs |}
                else {| res_success := res_success rs;
                        res_errors := <[rd_filepath rd := result]> (res_errors rs) |}).
    destruct (IH (success_one && success) rs1) as (rs' & Hrun & Hs & He).
    exists rs'. split; [|split].
    + simpl. unfold item_endpoint in Hone. rewrite (bind_ok _ _ _ _ _ Hone).
      fold rs1. rewrite Hrun. f_equal. f_equal.
      by destruct success_one, (forallb fst os), success.
    + intros k. rewrite Hs. simpl.
      destruct (last_filed true k rds os); [done|].
      subst rs1. destruct success_one; simpl.
      * rewrite andb_true_r. case_bool_decide as Hk.
        -- subst k. by rewrite lookup_insert_eq.
        -- by rewrite lookup_insert_ne.
      * by rewrite andb_false_r.
    + intros k. rewrite He. simpl.
      destruct (last_filed false k rds os); [done|].
      subst rs1. destruct success_one; simpl.
      * by rewrite andb_false_r.
      * rewrite andb_true_r. case_bool_decide as Hk.
        -- subst k. by rewrite lookup_insert_eq.
        -- by rewrite lookup_insert_ne.
Qed.

(** An item with a given classification leaves something under its key. *)
Lemma last_filed_is_Some (outcome : bool) (rds : list resource_dict)
    (os : list (bool * result)) (i : nat) (rd : resource_dict) (r : result) :
  rds !! i = Some rd → os !! i = Some (outcome, r) →
  is_Some (last_filed outcome (rd_filepath rd) rds os).
Proof.
  revert os i. induction rds as [|rd0 rds IH]; intros [|o os] [|i]; try done;
    simpl.
  - intros [= ->] [= ->]. destruct (last_filed _ _ _ _); [by eexists|].
    simpl. rewrite bool_decide_eq_true_2 by done. rewrite eqb_reflx.
    by eexists.
  - intros Hrd Ho. destruct (IH _ _ Hrd Ho) as [r' ->]. by eexists.
Qed.

(** What is filed under a key comes from an item with that key and that
    classification. *)
Lemma last_filed_from_item (outcome : bool) (k : string)
    (rds : list resource_dict) (os : list (bool * result)) (r : result) :
  last_filed outcome k rds os = Some r →
  ∃ i rd, rds !! i = Some rd ∧ os !! i = Some (outcome, r) ∧ rd_filepath rd = k.
Proof.
  revert os. induction rds as [|rd rds IH]; intros [|[b r0] os]; try done; simpl.
  destruct (last_filed outcome k rds os) as [r'|] eqn:Hlast.
  - intros [= ->]. destruct (IH _ Hlast) as (i & rd' & ? & ? & ?).
    by exists (S i), rd'.
  - case_bool_decide as Hk; simpl; [|done].
    destruct (Bool.eqb b outcome) eqn:Hb; [|done].
    apply eqb_prop in Hb as ->. intros [= ->]. by exists 0%nat, rd.
Qed.

(** C4, counterexample: the transport
    raises a connection error on the first of two items. The exception
    leaves [post_or_put_all]: no failure is recorded for the first item,
    and the second item is never sent. *)
Lemma C4_counterexample :
  let E := scripted [Raise (ConnectionError "connection refused");
                     answer 201 "{}" (Some (PDict []))] in
  let run := post_or_put_all E demo_client [item "a.json"; item "b.json"]
               (Some "http://localhost:8000/Patient") "post" fresh in
  run.1 = Raise (ConnectionError "connection refused") ∧
  length (sent run.2) = 1%nat.
Proof. split; reflexivity. Qed.

(** C4 (amended). In [post_or_put_all] an item whose request is classified
    as a failure does not stop the batch and is recorded: when every
    item's [post_or_put] returns, a result is returned, every item has had
    its request sent, every item classified as a failure has an entry under
    its filepath in the failures mapping and every item classified as a
    success has one in the successes mapping; each mapping holds under a
    key the result of the last item with that filepath and that
    classification, and nothing else.
    A hard error is not caught: when the items before [rd] return and
    [post_or_put] raises on [rd], that exception leaves [post_or_put_all]
    at once, no batch result is returned and the items after [rd] are not
    processed. *)
Theorem C4_hard_error_leaves_batch
    (E : env) (self : FhirApiClient) (endpoint : option string)
    (method : string) (w w1 : world) (pre : list resource_dict)
    (os : list (bool * result)) :
  items_run E self endpoint method w pre os w1 →
  (∃ rs, post_or_put_all E self pre endpoint method w =
           (Ok (forallb fst os, rs), w1) ∧
         length (sent w1) = (length (sent w) + length pre)%nat ∧
         (∀ i rd r, pre !! i = Some rd → os !! i = Some (false, r) →
            ∃ r', res_errors rs !! rd_filepath rd = Some r' ∧
                  ∃ j rd', pre !! j = Some rd' ∧ os !! j = Some (false, r') ∧
                           rd_filepath rd' = rd_filepath rd) ∧
         (∀ i rd r, pre !! i = Some rd → os !! i = Some (true, r) →
            ∃ r', res_success rs !! rd_filepath rd = Some r' ∧
                  ∃ j rd', pre !! j = Some rd' ∧ os !! j = Some (true, r') ∧
                           rd_filepath rd' = rd_filepath rd) ∧
         (∀ k, res_errors rs !! k = last_filed false k pre os) ∧
         (∀ k, res_success rs !! k = last_filed true k pre os)) ∧
  (∀ rd post e w2,
     post_or_put E self (item_endpoint rd endpoint) rd method w1 = (Raise e, w2) →
     post_or_put_all E self (pre ++ rd :: post) endpoint method w = (Raise e, w2)).
Proof.
  intros Hrun. split.
  - destruct (post_or_put_each_exact _ _ _ _ _ _ _ _ Hrun true
                {| res_success := ∅; res_errors := ∅ |}) as (rs & Heach & Hs & He).
    rewrite andb_true_r in Heach. simpl in Hs, He.
    assert (∀ k, res_errors rs !! k = last_filed false k pre os) as He'.
    { intros k. rewrite He. by destruct (last_filed false k pre os). }
    assert (∀ k, res_success rs !! k = last_filed true k pre os) as Hs'.
    { intros k. rewrite Hs. by destruct (last_filed true k pre os). }
    exists rs. split; [exact Heach|]. split; [by eapply items_run_sends|].
    split; [|split; [|split; [exact He' | exact Hs']]].
    + intros i rd r Hrd Ho.
      destruct (last_filed_is_Some false pre os i rd r Hrd Ho) as [r' Hr'].
      exists r'. split; [by rewrite He'|]. by apply last_filed_from_item.
    + intros i rd r Hrd Ho.
      destruct (last_filed_is_Some true pre os i rd r Hrd Ho) as [r' Hr'].
      exists r'. split; [by rewrite Hs'|]. by apply last_filed_from_item.
  - intros rd post e w2 Hraise.
    by eapply post_or_put_each_raises.
Qed.

(** C4 at work: the first item is refused with 400, the second meets a
    connection error that leaves the batch, the third is never sent. *)
Lemma C4_witness :
  let E := scripted [answer 400 "{}" (Some (PDict []));
                     Raise (ConnectionError "connection refused");
                     answer 201 "{}" (Some (PDict []))] in
  let run := post_or_put_all E demo_client
               [item "a.json"; item "b.json"; item "c.json"]
               (Some "http://localhost:8000/Patient") "post" fresh in
  (run.1 = Raise (ConnectionError "connection refused") ∧
   length (sent run.2) = 2%nat) ∧
  ∃ rs w', post_or_put_all E demo_client [item "a.json"]
             (Some "http://localhost:8000/Patient") "post" fresh
           = (Ok (false, rs), w') ∧
           res_errors rs !! "a.json" =
             Some {| res_status_code := 400;
                     res_request_url := "http://localhost:8000/Patient";
                     res_response := PDict [] |} ∧
           res_success rs !! "a.json" = None.
Proof.
  intros E run.
  pose (failed := (false, {| res_status_code := 400;
                             res_request_url := "http://localhost:8000/Patient";
                             res_response := PDict [] |})).
  assert (items_run E demo_client (Some "http://localhost:8000/Patient") "post"
            fresh [item "a.json"] [failed]
            (post_or_put E demo_client (Some "http://localhost:8000/Patient")
               (item "a.json") "post" fresh).2) as Hfirst.
  { apply items_run_step; [reflexivity | apply items_run_nil]. }
  destruct (C4_hard_error_leaves_batch _ _ _ _ _ _ _ _ Hfirst)
    as [(rs & Hall & _ & _ & _ & He & Hs) Hraise].
  split.
  - pose proof (Hraise (item "b.json") [item "c.json"] _ _ (surjective_pairing _))
      as Hrun.
    unfold run. simpl app in Hrun.
    change (post_or_put_all E demo_client
              [item "a.json"; item "b.json"; item "c.json"]
              (Some "http://localhost:8000/Patient") "post" fresh)
      with run in Hrun.
    split; [|reflexivity].
    exact (f_equal fst Hrun).
  - exists rs. eexists. split; [exact Hall|].
    split; [exact (He "a.json") | exact (Hs "a.json")].
Defined.

(** ** Fetch, then delete each *)

Lemma deletes_run_step E self auth w url urls o os w2 :
  let run := send_request E self "delete" (Some url) (delete_kwargs auth)
               (deleting url w) in
  fst <$> (match run.1 with Ok p => Some p | Raise _ => None end) = Some o →
  deletes_run E self auth run.2 urls os w2 →
  deletes_run E self auth w (url :: urls) (o :: os) w2.
Proof.
  intros run. subst run.
  destruct (send_request E self "delete" (Some url) (delete_kwargs auth)
              (deleting url w)) as [[[o' res]|e] w1] eqn:Hrun; simpl; [|done].
  intros [= ->] Hrest. by eapply deletes_run_cons.
Qed.

Lemma deletes_run_sends E self auth w urls os w' :
  deletes_run E self auth w urls os w' →
  sent w' = sent w ++
    map (λ url, request_sent self DELETE (Some url) (delete_kwargs auth)) urls.
Proof.
  induction 1 as [w|w url urls o res os w1 w2 Hone Hrest IH]; simpl.
  - by rewrite app_nil_r.
  - rewrite IH. eapply send_request_sends in Hone; [|reflexivity].
    rewrite Hone. simpl. by rewrite <- app_assoc.
Qed.

(** One turn of the loop of [delete_all], by what the entry asks for. *)
Lemma delete_each_skip E self entry rest auth success w :
  entry_target E self entry = Some None →
  delete_each E self (entry :: rest) auth success w =
    delete_each E self rest auth success w.
Proof.
  unfold entry_target. intros Ht.
  destruct entry as [| | | | | |e]; try discriminate.
  destruct (dict_lookup "resource" e) as [[| | | | | |rs]|] eqn:Hrs;
    try discriminate.
  destruct (dict_lookup "resourceType" rs) as [rs_type|] eqn:Hty; [|discriminate].
  destruct (py_eq_str rs_type "OperationOutcome") eqn:Hoo;
    [|by destruct (dict_lookup "id" rs)].
  simpl. run. rewrite Hrs. simpl. rewrite Hty. simpl. by rewrite Hoo.
Qed.

Lemma delete_each_target E self entry rest auth success w url :
  entry_target E self entry = Some (Some url) →
  delete_each E self (entry :: rest) auth success w =
    match send_request E self "delete" (Some url) (delete_kwargs auth)
            (deleting url w) with
    | (Ok (success_delete, _), w1) =>
        delete_each E self rest auth (success_delete && success) w1
    | (Raise e, w1) => (Raise e, w1)
    end.
Proof.
  unfold entry_target. intros Ht.
  destruct entry as [| | | | | |e]; try discriminate.
  destruct (dict_lookup "resource" e) as [[| | | | | |rs]|] eqn:Hrs;
    try discriminate.
  destruct (dict_lookup "resourceType" rs) as [rs_type|] eqn:Hty; [|discriminate].
  destruct (py_eq_str rs_type "OperationOutcome") eqn:Hoo; [discriminate|].
  destruct (dict_lookup "id" rs) as [rs_id|] eqn:Hid; [|discriminate].
  injection Ht as <-.
  simpl. run. rewrite Hrs. simpl. rewrite Hty. simpl. rewrite Hoo, Hid. simpl.
  fold (delete_url E self rs_type rs_id). unfold deleting, delete_kwargs.
  by destruct (send_request _ _ _ _ _ _) as [[[o res]|e0] w1].
Qed.

Lemma delete_each_malformed E self entry rest auth success w :
  entry_target E self entry = None →
  ∃ e, delete_each E self (entry :: rest) auth success w = (Raise e, w).
Proof.
  unfold entry_target. intros Ht. simpl. run.
  destruct entry as [| | | | | |e]; simpl; eauto.
  destruct (dict_lookup "resource" e) as [resource|] eqn:Hrs; simpl; eauto.
  destruct resource as [| | | | | |rs]; simpl; eauto.
  destruct (dict_lookup "resourceType" rs) as [rs_type|] eqn:Hty; simpl.
  - destruct (py_eq_str rs_type "OperationOutcome") eqn:Hoo; [discriminate|].
    rewrite ?Hrs; simpl; rewrite ?Hty; simpl.
    destruct (dict_lookup "id" rs); [discriminate|]. simpl. eauto.
  - rewrite ?Hrs; simpl; rewrite ?Hty; simpl. eauto.
Qed.

(** The loop over entries that ask for [urls], once these DELETEs have
    been classified: it goes on with what follows them. *)
Lemma delete_each_prefix E self auth pre :
  ∀ urls os w w2 success rest,
    delete_targets E self pre = Some urls →
    deletes_run E self auth w urls os w2 →
    delete_each E self (pre ++ rest) auth success w =
      delete_each E self rest auth (forallb id os && success) w2.
Proof.
  induction pre as [|entry pre IH]; intros urls os w w2 success rest Htargets Hrun.
  - injection Htargets as <-. inversion Hrun; subst. reflexivity.
  - simpl in Htargets.
    destruct (entry_target E self entry) as [[url|]|] eqn:Ht; [| |done];
      destruct (delete_targets E self pre) as [urls'|] eqn:Hpre; try done;
      injection Htargets as <-.
    + inversion Hrun as [|? ? ? o res os' w1 ? Hone Hnext]; subst.
      rewrite <- app_comm_cons, (delete_each_target _ _ _ _ _ _ _ _ Ht), Hone.
      rewrite (IH _ _ _ _ (o && success) rest eq_refl Hnext).
      f_equal.
      change (forallb id (o :: os')) with (o && forallb id os').
      by destruct o, (forallb id os'), success.
    + rewrite <- app_comm_cons, (delete_each_skip _ _ _ _ _ _ _ Ht).
      exact (IH _ _ _ _ _ _ eq_refl Hrun).
Qed.

(** After a fetch that returned with an object as body, [delete_all] is
    its loop over the entries of the body, unless the fetch had failed. *)
Lemma delete_all_after_fetch E self endpoint kw w res w1 d entries :
  send_request E self "get" endpoint (fetch_kwargs self kw) (begun w)
    = (Ok (true, res), w1) →
  res_response res = PDict d →
  default (PList []) (dict_lookup "entry" d) = PList entries →
  delete_all E self endpoint kw w =
    delete_each E self entries (kw_auth (fetch_kwargs self kw)) true
      (fetched E res d w1).
Proof.
  intros Hfetch Hbody Hentry.
  unfold delete_all. fold (fetch_kwargs self kw).
  unfold bind at 1, log at 1. fold (begun w).
  rewrite (bind_ok _ _ _ _ _ Hfetch). run.
  by rewrite Hbody; simpl; rewrite Hentry.
Qed.

Lemma delete_each_returns E self auth entries :
  ∀ urls os w w' success,
    delete_targets E self entries = Some urls →
    deletes_run E self auth w urls os w' →
    delete_each E self entries auth success w = (Ok (forallb id os && success), w').
Proof.
  induction entries as [|entry rest IH]; intros urls os w w' success Htargets Hrun.
  - injection Htargets as <-. inversion Hrun; subst. reflexivity.
  - simpl in Htargets.
    destruct (entry_target E self entry) as [target|] eqn:Hentry; [|done].
    destruct (delete_targets E self rest) as [urls'|] eqn:Hrest;
      [|by destruct target].
    unfold entry_target in Hentry.
    destruct entry as [| | | | | |e]; try discriminate.
    destruct (dict_lookup "resource" e) as [[| | | | | |rs]|] eqn:Hrs;
      try discriminate.
    destruct (dict_lookup "resourceType" rs) as [rs_type|] eqn:Hty;
      [|discriminate].
    simpl. run. rewrite Hrs. simpl. rewrite Hty. simpl.
    destruct (py_eq_str rs_type "OperationOutcome") eqn:Hoo.
    + injection Hentry as <-. injection Htargets as <-. by eapply IH.
    + destruct (dict_lookup "id" rs) as [rs_id|] eqn:Hid; [|discriminate].
      injection Hentry as <-. injection Htargets as <-.
      inversion Hrun as [|? ? ? o res os' w1 ? Hone Hnext]; subst.
      fold (delete_url E self rs_type rs_id).
      unfold deleting, delete_kwargs in Hone. rewrite Hone.
      rewrite (IH _ _ _ _ (o && success) eq_refl Hnext). f_equal. f_equal.
      change (forallb id (o :: os')) with (o && forallb id os').
      by destruct o, (forallb id os'), success.
Qed.

(** C6. Let the fetch of [delete_all] be classified as a failure. In every
    case the GET is the only request sent: no DELETE is issued. When the
    body of the answer is an object, [delete_all] returns [False]. When it
    is anything else (raw text, a list, [null], ...), [delete_all] does not
    return: reporting the fetch in the log calls [get] on the body, and
    AttributeError is raised. *)
Theorem C6_failed_fetch
    (E : env) (self : FhirApiClient) (endpoint : option string) (kw : kwargs)
    (w : world) (res : result) (w1 : world) :
  send_request E self "get" endpoint (fetch_kwargs self kw) (begun w)
    = (Ok (false, res), w1) →
  ∃ o w2,
    delete_all E self endpoint kw w = (o, w2) ∧
    sent w2 = sent w ++ [request_sent self GET endpoint (fetch_kwargs self kw)] ∧
    (is_object (res_response res) = true → o = Ok false) ∧
    (is_object (res_response res) = false →
     o = Raise (AttributeError (type_name (res_response res)) "get")).
Proof.
  intros Hfetch.
  pose proof (send_request_sends E self "get" endpoint _ _ GET eq_refl _ _ Hfetch)
    as Hsent.
  unfold delete_all. run. unfold fetch_kwargs, begun in Hfetch.
  destruct (kw_auth kw) eqn:Hauth; rewrite Hfetch; simpl;
    destruct (res_response res); simpl;
    eexists _, _; (split; [reflexivity|]); (split; [exact Hsent|]);
    split; intros; done.
Qed.

(** C6 at work: the fetch is answered with 404 and the text Not Found. *)
Lemma C6_witness :
  let E := scripted [answer 404 "Not Found" None] in
  let run := delete_all E demo_client (Some "http://localhost:8000/Patient")
               no_kwargs fresh in
  run.1 = Raise (AttributeError "str" "get") ∧ length (sent run.2) = 1%nat.
Proof.
  intros E run.
  destruct (C6_failed_fetch E demo_client (Some "http://localhost:8000/Patient")
              no_kwargs fresh _ _ eq_refl)
    as (o & w2 & Hrun & Hsent & _ & Hraise).
  fold run in Hrun. rewrite Hrun. simpl. rewrite Hsent.
  split; [exact (Hraise eq_refl) | reflexivity].
Defined.

(** C7, counterexample: the collection holds Patient/1, an
    OperationOutcome and Patient/2, and the transport raises a connection
    error on the DELETE of Patient/1. The exception leaves [delete_all]:
    Patient/2 is an entry that is no OperationOutcome, and no DELETE is
    issued for it. *)
Lemma C7_counterexample :
  let E := scripted [answer 200 "..." (Some (PDict bundle));
                     Raise (ConnectionError "connection refused");
                     answer 204 "" None] in
  let run := delete_all E demo_client (Some "http://localhost:8000/Patient")
               no_kwargs fresh in
  delete_targets E demo_client (body_entries (PDict bundle)) =
    Some ["http://localhost:8000/Patient/1"; "http://localhost:8000/Patient/2"] ∧
  run.1 = Raise (ConnectionError "connection refused") ∧
  map (λ rq, (req_verb rq, req_url rq)) (sent run.2) =
    [(GET, Some "http://localhost:8000/Patient");
     (DELETE, Some "http://localhost:8000/Patient/1")].
Proof. repeat split; reflexivity. Qed.

(** C7 (amended). Let the fetch of [delete_all] be classified as a success,
    with an object as its body, whose 'entry' member, if present, is a
    list.
    - If every entry has a resource that is an OperationOutcome or has a
      type and an id, and the DELETE of each target is classified in turn,
      then [delete_all] sends, after the GET, exactly one DELETE for each
      entry that is not an OperationOutcome, in order, to
      [base_url/resourceType/id] of its resource, and none for an
      OperationOutcome; a DELETE classified as a failure is followed by
      the remaining ones; and the result is the conjunction of the fetch
      outcome and all delete outcomes.
    - The cascade stops at the first entry whose DELETE raises (a
      transport fault, say): the entries before it have had their DELETEs,
      that exception leaves [delete_all], and the entries after it get no
      DELETE.
    - It stops likewise, with an exception, at the first entry that has no
      resource, or whose resource lacks its type or, not being an
      OperationOutcome, its id: no DELETE is sent for that entry nor for
      those after it. *)
Theorem C7_cascade_delete
    (E : env) (self : FhirApiClient) (endpoint : option string) (kw : kwargs)
    (w : world) (res : result) (w1 : world) (d : list (string * pyval))
    (entries : list pyval) :
  send_request E self "get" endpoint (fetch_kwargs self kw) (begun w)
    = (Ok (true, res), w1) →
  res_response res = PDict d →
  default (PList []) (dict_lookup "entry" d) = PList entries →
  let auth := kw_auth (fetch_kwargs self kw) in
  let get := request_sent self GET endpoint (fetch_kwargs self kw) in
  let delete := λ url, request_sent self DELETE (Some url) (delete_kwargs auth) in
  (∀ urls os w2,
     delete_targets E self entries = Some urls →
     deletes_run E self auth (fetched E res d w1) urls os w2 →
     delete_all E self endpoint kw w = (Ok (true && forallb id os), w2) ∧
     sent w2 = sent w ++ get :: map delete urls) ∧
  (∀ pre entry post urls os w2,
     entries = pre ++ entry :: post →
     delete_targets E self pre = Some urls →
     deletes_run E self auth (fetched E res d w1) urls os w2 →
     (∀ url e w3,
        entry_target E self entry = Some (Some url) →
        send_request E self "delete" (Some url) (delete_kwargs auth)
          (deleting url w2) = (Raise e, w3) →
        delete_all E self endpoint kw w = (Raise e, w3) ∧
        sent w3 = sent w ++ get :: map delete (urls ++ [url])) ∧
     (entry_target E self entry = None →
      ∃ e, delete_all E self endpoint kw w = (Raise e, w2) ∧
           sent w2 = sent w ++ get :: map delete urls)).
Proof.
  intros Hfetch Hbody Hentry auth get delete.
  pose proof (delete_all_after_fetch _ _ _ _ _ _ _ _ _ Hfetch Hbody Hentry)
    as Hloop. fold auth in Hloop.
  assert (sent (fetched E res d w1) = sent w ++ [get]) as Hget.
  { simpl.
    by rewrite (send_request_sends E self "get" endpoint _ _ GET eq_refl _ _ Hfetch). }
  assert (∀ urls os w2,
            deletes_run E self auth (fetched E res d w1) urls os w2 →
            sent w2 = sent w ++ get :: map delete urls) as Hsent.
  { intros urls os w2 Hdeletes.
    rewrite (deletes_run_sends _ _ _ _ _ _ _ Hdeletes), Hget.
    by rewrite <- app_assoc. }
  split.
  - intros urls os w2 Htargets Hdeletes. split; [|by eapply Hsent].
    rewrite Hloop, (delete_each_returns _ _ _ _ _ _ _ _ true Htargets Hdeletes).
    by rewrite andb_true_r.
  - intros pre entry post urls os w2 -> Htargets Hdeletes.
    rewrite (delete_each_prefix _ _ _ _ _ _ _ _ true (entry :: post)
               Htargets Hdeletes) in Hloop.
    split.
    + intros url e w3 Ht Hraise.
      rewrite (delete_each_target _ _ _ _ _ _ _ _ Ht), Hraise in Hloop.
      split; [exact Hloop|].
      apply (send_request_sends E self "delete" _ _ _ DELETE eq_refl) in Hraise.
      simpl in Hraise. rewrite Hraise, (Hsent _ _ _ Hdeletes), map_app.
      simpl. by rewrite <- app_assoc.
    + intros Ht.
      destruct (delete_each_malformed E self entry post auth
                  (forallb id os && true) w2 Ht) as [e He].
      exists e. rewrite He in Hloop. split; [exact Hloop | by eapply Hsent].
Qed.

Lemma run_eta {A} (p : outcome A * world) (a : A) :
  p.1 = Ok a → p = (Ok a, p.2).
Proof. destruct p as [o w]. simpl. by intros ->. Qed.

(** C7 at work: the first DELETE is refused with 404, the second still
    goes out, and nothing is sent for the OperationOutcome. *)
Lemma C7_witness :
  let E := scripted [answer 200 "..." (Some (PDict bundle));
                     answer 404 "{}" (Some (PDict []));
                     answer 204 "" None] in
  let run := delete_all E demo_client (Some "http://localhost:8000/Patient")
               no_kwargs fresh in
  run.1 = Ok false ∧
  map (λ rq, (req_verb rq, req_url rq)) (sent run.2) =
    [(GET, Some "http://localhost:8000/Patient");
     (DELETE, Some "http://localhost:8000/Patient/1");
     (DELETE, Some "http://localhost:8000/Patient/2")].
Proof.
  intros E run.
  pose (urls := ["http://localhost:8000/Patient/1";
                 "http://localhost:8000/Patient/2"]).
  pose (res := {| res_status_code := 200;
                  res_request_url := "http://localhost:8000/Patient";
                  res_response := PDict bundle |}).
  pose (fetch := send_request E demo_client "get"
                    (Some "http://localhost:8000/Patient")
                    (fetch_kwargs demo_client no_kwargs) (begun fresh)).
  destruct (proj1 (C7_cascade_delete E demo_client
                     (Some "http://localhost:8000/Patient") no_kwargs fresh
                     res fetch.2 bundle _
                     (run_eta fetch (true, res) eq_refl) eq_refl eq_refl)
              urls [false; true] run.2 eq_refl)
    as [Hrun Hsent].
  { repeat (apply deletes_run_step; [reflexivity|]). apply deletes_run_nil. }
  fold run in Hrun. rewrite Hrun. simpl. split; [reflexivity|].
  rewrite Hsent. reflexivity.
Defined.


(** * Further properties *)

#[local] Set Warnings "-clear-no-such-hyp".

(** ** One request *)

Lemma fhir_version_headers_only_content_type (self : FhirApiClient) (k : string) :
  k ≠ "Content-Type" → _fhir_version_headers self !! k = None.
Proof.
  intros Hk. unfold _fhir_version_headers.
  destruct (fhir_version self) as [[|c s]|]; try apply lookup_empty.
  by apply lookup_singleton_ne.
Qed.

Lemma send_request_world E self m url kw w :
  match session_getattr (lower m) with
  | Ok v => sent (send_request E self m url kw w).2 =
              sent w ++ [request_sent self v url kw]
  | Raise e => send_request E self m url kw w = (Raise e, w)
  end.
Proof.
  destruct (session_getattr (lower m)) as [v|e] eqn:Hd.
  - apply (send_request_sends E self m url kw w v Hd
             (send_request E self m url kw w).1).
    by destruct (send_request E self m url kw w).
  - by apply send_request_no_such_method.
Qed.

(** X1. [send_request] hands at most one request to the session, whatever
    its arguments and whatever comes of it (a result, a transport fault,
    an exception of the issue scan). When the lower-cased method name is
    not a request function of the session, the call raises with nothing
    sent and nothing logged. When it is one and the call supplies a
    headers dict, exactly one request goes out. *)
Theorem X1_send_request_one_request
    (E : env) (self : FhirApiClient) (m : string) (url : option string)
    (kw : kwargs) (w : world) :
  let run := send_request E self m url kw w in
  (sent run.2 = sent w ∨ ∃ rq, sent run.2 = sent w ++ [rq]) ∧
  ((∀ v, session_getattr (lower m) ≠ Ok v) → ∃ e, run = (Raise e, w)) ∧
  (∀ v headers,
     session_getattr (lower m) = Ok v →
     kw_headers kw = Some headers →
     ∃ rq, sent run.2 = sent w ++ [rq] ∧
           req_verb rq = v ∧ req_url rq = url ∧
           (∀ k, k ≠ "Content-Type" →
                 default ∅ (kw_headers (req_kwargs rq)) !! k = headers !! k)).
Proof.
  intros run. subst run.
  destruct (session_getattr (lower m)) as [v|e] eqn:Hd.
  - destruct (send_request E self m url kw w) as [o w'] eqn:Hrun.
    pose proof (send_request_sends E self m url kw w v Hd o w' Hrun) as Hsent.
    simpl. split; [right; eauto|]. split; [intros Hno; by destruct (Hno v)|].
    intros v' headers [= <-] Hh. exists (request_sent self v url kw).
    repeat (split; [done|]). intros k Hk. simpl. rewrite Hh. simpl.
    destruct (headers !! "Content-Type"); [done|]. simpl.
    rewrite lookup_union, fhir_version_headers_only_content_type by done.
    by destruct (headers !! k).
  - assert (send_request E self m url kw w = (Raise e, w)) as ->.
    { unfold send_request. rewrite Hd. run. by destruct (auth self). }
    simpl. split; [by left|]. split; [eauto | discriminate].
Qed.

(** X1 at work: a POST with a headers dict. *)
Lemma X1_witness :
  let E := scripted [answer 201 "{}" (Some (PDict []))] in
  let kw := {| kw_auth := None;
               kw_headers := Some {[ "Accept" := "application/fhir+json" ]};
               kw_json := Some (PDict [("resourceType", PStr "Patient")]) |} in
  ∃ rq, sent (send_request E demo_client "post"
                (Some "http://localhost:8000/Patient") kw fresh).2 = [rq] ∧
        req_verb rq = POST ∧
        req_url rq = Some "http://localhost:8000/Patient".
Proof.
  intros E kw.
  destruct (proj2 (proj2 (X1_send_request_one_request E demo_client "post"
                            (Some "http://localhost:8000/Patient") kw fresh))
              POST _ eq_refl eq_refl)
    as (rq & Hsent & Hv & Hu & _).
  by exists rq.
Defined.

Lemma upper_ascii_idemp (c : ascii) : upper_ascii (upper_ascii c) = upper_ascii c.
Proof. destruct c as [[] [] [] [] [] [] [] []]; reflexivity. Qed.

Lemma lower_ascii_idemp (c : ascii) : lower_ascii (lower_ascii c) = lower_ascii c.
Proof. destruct c as [[] [] [] [] [] [] [] []]; reflexivity. Qed.

Lemma lower_upper_ascii (c : ascii) : lower_ascii (upper_ascii c) = lower_ascii c.
Proof. destruct c as [[] [] [] [] [] [] [] []]; reflexivity. Qed.

Lemma upper_lower_ascii (c : ascii) : upper_ascii (lower_ascii c) = upper_ascii c.
Proof. destruct c as [[] [] [] [] [] [] [] []]; reflexivity. Qed.

Lemma upper_idemp (s : string) : upper (upper s) = upper s.
Proof. induction s; simpl; [done|]. by rewrite upper_ascii_idemp, IHs. Qed.

Lemma lower_idemp (s : string) : lower (lower s) = lower s.
Proof. induction s; simpl; [done|]. by rewrite lower_ascii_idemp, IHs. Qed.

Lemma lower_upper (s : string) : lower (upper s) = lower s.
Proof. induction s; simpl; [done|]. by rewrite lower_upper_ascii, IHs. Qed.

Lemma upper_lower (s : string) : upper (lower s) = upper s.
Proof. induction s; simpl; [done|]. by rewrite upper_lower_ascii, IHs. Qed.

(** The method name enters [send_request] through its lower-case and its
    upper-case form only. *)
Lemma send_request_by_case E self m m' url kw w :
  lower m' = lower m → upper m' = upper m →
  send_request E self m' url kw w = send_request E self m url kw w.
Proof. intros Hl Hu. unfold send_request. by rewrite Hl, Hu. Qed.

(** X2. The method name of [send_request] is case-insensitive: for an
    ASCII name, its upper-case and its lower-case form give the very run
    the name itself gives (same request, same classification, same log). *)
Theorem X2_send_request_method_case
    (E : env) (self : FhirApiClient) (m : string) (url : option string)
    (kw : kwargs) (w : world) :
  is_ascii m = true →
  send_request E self (upper m) url kw w = send_request E self m url kw w ∧
  send_request E self (lower m) url kw w = send_request E self m url kw w.
Proof.
  intros _. split; apply send_request_by_case;
    auto using lower_upper, upper_idemp, lower_idemp, upper_lower.
Qed.

(** X2 at work: Delete, DELETE and delete. *)
Lemma X2_witness :
  let E := scripted [answer 204 "" None] in
  send_request E demo_client "DELETE" (Some "http://localhost:8000/Patient/1")
    no_kwargs fresh
  = send_request E demo_client "Delete" (Some "http://localhost:8000/Patient/1")
      no_kwargs fresh ∧
  send_request E demo_client "delete" (Some "http://localhost:8000/Patient/1")
    no_kwargs fresh
  = send_request E demo_client "Delete" (Some "http://localhost:8000/Patient/1")
      no_kwargs fresh.
Proof.
  intros E.
  exact (X2_send_request_method_case E demo_client "Delete"
           (Some "http://localhost:8000/Patient/1") no_kwargs fresh eq_refl).
Defined.

(** Every way [send_request] has of returning. *)
Lemma send_request_inv E self m url kw w b res w' :
  send_request E self m url kw w = (Ok (b, res), w') →
  ∃ v r,
    session_getattr (lower m) = Ok v ∧
    remote E (sent w) (request_sent self v url kw) = Ok r ∧
    res = result_of E r ∧
    ((accepted_status (upper m) (Response.status_code r) = false ∧ b = false) ∨
     (accepted_status (upper m) (Response.status_code r) = true ∧
      ∃ errors, _errors_from_response (_response_content r) = Ok errors ∧
                b = bool_decide (errors = []))).
Proof.
  intros Hrun. destruct (session_getattr (lower m)) as [v|e] eqn:Hd;
    [|by rewrite (send_request_no_such_method _ _ _ _ _ _ _ Hd) in Hrun].
  exists v. destruct (remote E (sent w) (request_sent self v url kw)) as [r|e] eqn:Hr;
    [|by rewrite (send_request_transport_raises _ _ _ _ _ _ _ Hd _ Hr) in Hrun].
  exists r. split; [done|]. split; [done|].
  destruct (accepted_status (upper m) (Response.status_code r)) eqn:Ha.
  - destruct (_errors_from_response (_response_content r)) as [errors|e] eqn:He;
      [|by rewrite (send_request_scan_raises _ _ _ _ _ _ _ Hd _ _ Hr Ha He) in Hrun].
    destruct (send_request_scanned _ _ _ _ _ _ _ Hd _ _ Hr Ha He) as (w1 & Hrun' & _).
    rewrite Hrun' in Hrun. injection Hrun as <- <- _.
    split; [done|]. right. eauto.
  - destruct (send_request_rejected _ _ _ _ _ _ _ Hd _ Hr Ha) as (w1 & Hrun' & _).
    rewrite Hrun' in Hrun. injection Hrun as <- <- _.
    split; [done|]. by left.
Qed.

Lemma error_issues_inv (issues errors : list pyval) :
  error_issues issues = Ok errors →
  forallb carries_severity issues = true ∧
  errors = List.filter is_error_issue issues.
Proof.
  intros Hscan. destruct (forallb carries_severity issues) eqn:Hsev.
  - rewrite (error_issues_total _ Hsev) in Hscan. by injection Hscan as <-.
  - destruct (error_issues_raises _ Hsev) as (e & He & _). congruence.
Qed.

Lemma error_issues_of_strings (l : list pyval) :
  l ≠ [] → Forall (λ v, is_object v = false) l →
  ∃ e, error_issues l = Raise e.
Proof.
  intros Hne Hall. destruct l as [|v l]; [done|].
  apply Forall_cons in Hall as [Hv _].
  destruct v; try discriminate; simpl; eauto.
Qed.

Lemma chars_not_objects (s : string) : Forall (λ v, is_object v = false) (chars s).
Proof. induction s; simpl; by constructor. Qed.

Lemma keys_not_objects (d : list (string * pyval)) :
  Forall (λ v, is_object v = false) (map (λ kv, PStr kv.1) d).
Proof. induction d; simpl; by constructor. Qed.

(** A scan that finds an error has read it from an 'issue' list. *)
Lemma errors_found_inv (body issue : pyval) (errors : list pyval) :
  _errors_from_response body = Ok (issue :: errors) →
  ∃ d issues,
    body = PDict d ∧ dict_lookup "issue" d = Some (PList issues) ∧
    error_issues issues = Ok (issue :: errors).
Proof.
  unfold _errors_from_response.
  destruct (truthy body) eqn:Ht; [|discriminate].
  destruct body as [| | | | | |d]; try discriminate. simpl.
  destruct (dict_lookup "issue" d) as [v|] eqn:Hv; [|discriminate]. simpl.
  destruct v as [| | | |s|issues|d']; try discriminate; simpl.
  - destruct s as [|c s]; [discriminate|].
    destruct (error_issues_of_strings (chars (String c s))) as [e He];
      [done | apply chars_not_objects |].
    rewrite He. discriminate.
  - intros Hscan. by exists d, issues.
  - destruct d' as [|kv d']; [discriminate|].
    destruct (error_issues_of_strings (map (λ kv, PStr kv.1) (kv :: d'))) as [e He];
      [done | apply keys_not_objects |].
    rewrite He. discriminate.
Qed.

(** X3. [send_request] reports success only for an answer whose status is
    accepted for the method and whose body is free of errors: the body is
    empty or an object, and if it holds an 'issue' list, every entry of
    the list carries a severity and none has severity "error". The result
    carries the answer. *)
Theorem X3_success_is_sound
    (E : env) (self : FhirApiClient) (m : string) (url : option string)
    (kw : kwargs) (w : world) (res : result) (w' : world) :
  send_request E self m url kw w = (Ok (true, res), w') →
  ∃ v r,
    session_getattr (lower m) = Ok v ∧
    remote E (sent w) (request_sent self v url kw) = Ok r ∧
    res = result_of E r ∧
    accepted_status (upper m) (Response.status_code r) = true ∧
    (truthy (res_response res) = true → is_object (res_response res) = true) ∧
    (∀ d issues,
       res_response res = PDict d →
       dict_lookup "issue" d = Some (PList issues) →
       forallb carries_severity issues = true ∧
       existsb is_error_issue issues = false).
Proof.
  intros Hrun.
  destruct (send_request_inv _ _ _ _ _ _ _ _ _ Hrun)
    as (v & r & Hd & Hr & -> & [[_ [=]] | (Ha & errors & Hscan & Hb)]).
  exists v, r. repeat (split; [done|]). simpl.
  symmetry in Hb. apply bool_decide_eq_true_1 in Hb as ->. split.
  - intros Ht. revert Hscan. unfold _errors_from_response. rewrite Ht.
    by destruct (_response_content r).
  - intros d issues Hbody Hissue.
    rewrite (errors_from_issue_entries _ issues) in Hscan
      by (rewrite Hbody; by apply issue_entries_list).
    apply error_issues_inv in Hscan as [Hsev Hnone]. split; [done|].
    by apply filter_nil_existsb.
Qed.

(** X3 at work, on scenario A: a POST answered with 201 and an empty
    object. *)
Lemma X3_witness :
  let E := scripted [answer 201 "{}" (Some (PDict []))] in
  ∃ v r, session_getattr (lower "post") = Ok v ∧
         remote E (sent fresh)
           (request_sent demo_client v (Some "http://localhost:8000/Patient")
              no_kwargs) = Ok r ∧
         accepted_status (upper "post") (Response.status_code r) = true.
Proof.
  intros E.
  destruct (X3_success_is_sound E demo_client "post"
              (Some "http://localhost:8000/Patient") no_kwargs fresh _ _
              (run_eta (send_request E demo_client "post"
                          (Some "http://localhost:8000/Patient") no_kwargs fresh)
                 (true, {| res_status_code := 201;
                           res_request_url := "http://localhost:8000/Patient";
                           res_response := PDict [] |}) eq_refl))
    as (v & r & Hd & Hr & _ & Ha & _).
  by exists v, r.
Defined.

(** X4. A failure reported by [send_request] has a cause in the answer,
    which the result carries: the status is not accepted for the method,
    or the body is an object whose 'issue' list holds an entry of severity
    "error". *)
Theorem X4_failure_has_a_cause
    (E : env) (self : FhirApiClient) (m : string) (url : option string)
    (kw : kwargs) (w : world) (res : result) (w' : world) :
  send_request E self m url kw w = (Ok (false, res), w') →
  ∃ v r,
    session_getattr (lower m) = Ok v ∧
    remote E (sent w) (request_sent self v url kw) = Ok r ∧
    res = result_of E r ∧
    (accepted_status (upper m) (Response.status_code r) = false ∨
     ∃ d issues,
       res_response res = PDict d ∧
       dict_lookup "issue" d = Some (PList issues) ∧
       existsb is_error_issue issues = true).
Proof.
  intros Hrun.
  destruct (send_request_inv _ _ _ _ _ _ _ _ _ Hrun)
    as (v & r & Hd & Hr & -> & [[Ha _] | (Ha & errors & Hscan & Hb)]);
    exists v, r; repeat (split; [done|]); [by left|]. right.
  destruct errors as [|issue errors];
    [by rewrite bool_decide_eq_true_2 in Hb|].
  destruct (errors_found_inv _ _ _ Hscan) as (d & issues & Hbody & Hissue & Hl).
  exists d, issues. repeat (split; [done|]).
  apply error_issues_inv in Hl as [_ Hl].
  destruct (existsb is_error_issue issues) eqn:Hex; [done|].
  apply filter_nil_existsb in Hex. congruence.
Qed.

(** X4 at work, on scenario B: a POST answered with 200 and an error
    issue. *)
Lemma X4_witness :
  let body := PDict [("issue", PList [PDict [("severity", PStr "error")]])] in
  let E := scripted [answer 200 "..." (Some body)] in
  ∃ v r, session_getattr (lower "post") = Ok v ∧
         remote E (sent fresh)
           (request_sent demo_client v (Some "http://localhost:8000/Patient")
              no_kwargs) = Ok r.
Proof.
  intros body E.
  destruct (X4_failure_has_a_cause E demo_client "post"
              (Some "http://localhost:8000/Patient") no_kwargs fresh _ _
              (run_eta (send_request E demo_client "post"
                          (Some "http://localhost:8000/Patient") no_kwargs fresh)
                 (false, {| res_status_code := 200;
                            res_request_url := "http://localhost:8000/Patient";
                            res_response := body |}) eq_refl))
    as (v & r & Hd & Hr & _).
  by exists v, r.
Defined.

(** ** The issue scan *)

(** X5. [_errors_from_response] returns exactly on the bodies it can read:
    an empty body (empty text, [null], [{}], [[]], 0, false), or an object
    whose 'issue' member is absent, an empty string or object, or a list
    of objects that each carry a severity. What it returns is then the
    entries of the 'issue' list whose severity is the string "error", in
    their order; any other severity ("fatal", "Error", a number) does not
    count. On every other body it raises. *)
Theorem X5_issue_scan_domain (body : pyval) (errors : list pyval) :
  _errors_from_response body = Ok errors ↔
  scannable body = true ∧
  errors = List.filter is_error_issue (listed_issues body).
Proof.
  unfold _errors_from_response, scannable, listed_issues.
  destruct (truthy body) eqn:Ht.
  - destruct body as [| | | | | |d]; simpl; try (split; [discriminate | by intros [? _]]).
    destruct (dict_lookup "issue" d) as [v|] eqn:Hv; simpl;
      [|split; [by intros [= <-] | by intros [_ ->]]].
    destruct v as [| | | |s|issues|d']; simpl;
      try (split; [discriminate | by intros [? _]]).
    + destruct s as [|c s]; simpl; [split; [by intros [= <-] | by intros [_ ->]]|].
      destruct (error_issues_of_strings (chars (String c s))) as [e He];
        [done | apply chars_not_objects |].
      simpl in He. rewrite He. split; [discriminate | by intros [? _]].
    + split.
      * by intros Hscan%error_issues_inv.
      * intros [Hsev ->]. by apply error_issues_total.
    + destruct d' as [|kv d']; simpl; [split; [by intros [= <-] | by intros [_ ->]]|].
      destruct (error_issues_of_strings (map (λ kv, PStr kv.1) (kv :: d'))) as [e He];
        [done | apply keys_not_objects |].
      simpl in He. rewrite He. split; [discriminate | by intros [? _]].
  - assert (List.filter is_error_issue
              match body with
              | PDict d => match dict_lookup "issue" d with
                           | Some (PList issues) => issues
                           | _ => []
                           end
              | _ => []
              end = []) as ->.
    { destruct body as [| | | | | |d]; try done. by destruct d. }
    simpl. split; [by intros [= <-] | by intros [_ ->]].
Qed.

(** X6. An answer with an accepted status whose body is not empty and not
    an object (non-empty text, a non-empty JSON array, a non-zero number,
    [true]) never yields a result: once the request has gone out,
    [send_request] raises AttributeError for the missing [get] of the
    body's type. *)
Theorem X6_non_object_body_raises
    (E : env) (self : FhirApiClient) (m : string) (url : option string)
    (kw : kwargs) (w : world) (v : verb) (r : Response.t) :
  session_getattr (lower m) = Ok v →
  remote E (sent w) (request_sent self v url kw) = Ok r →
  accepted_status (upper m) (Response.status_code r) = true →
  truthy (_response_content r) = true →
  is_object (_response_content r) = false →
  send_request E self m url kw w =
    (Raise (AttributeError (type_name (_response_content r)) "get"),
     after_request w (request_sent self v url kw)).
Proof.
  intros Hd Hr Ha Ht Hobj. apply send_request_scan_raises with (r := r); try done.
  unfold _errors_from_response. rewrite Ht.
  by destruct (_response_content r).
Qed.

(** X6 at work: a GET answered with 200 and a JSON array. *)
Lemma X6_witness :
  let E := scripted [answer 200 "[1]" (Some (PList [PInt 1]))] in
  send_request E demo_client "get" (Some "http://localhost:8000/Patient")
    no_kwargs fresh
  = (Raise (AttributeError "list" "get"),
     after_request fresh
       (request_sent demo_client GET (Some "http://localhost:8000/Patient")
          no_kwargs)).
Proof.
  intros E.
  exact (X6_non_object_body_raises E demo_client "get"
           (Some "http://localhost:8000/Patient") no_kwargs fresh GET _
           eq_refl eq_refl eq_refl eq_refl eq_refl).
Defined.

(** ** The request that goes out, again *)

(** X7. [send_request] passes the request on as it was given: the URL and
    the json payload are untouched, and so is every header other than
    'Content-Type'; no header is dropped, and none but 'Content-Type' is
    added. *)
Theorem X7_request_passed_on
    (E : env) (self : FhirApiClient) (m : string) (url : option string)
    (kw : kwargs) (w : world) :
  let run := send_request E self m url kw w in
  match session_getattr (lower m) with
  | Ok v =>
      ∃ rq headers,
        sent run.2 = sent w ++ [rq] ∧
        req_session rq = session self ∧
        req_verb rq = v ∧
        req_url rq = url ∧
        kw_json (req_kwargs rq) = kw_json kw ∧
        kw_headers (req_kwargs rq) = Some headers ∧
        ∀ k, k ≠ "Content-Type" → headers !! k = default ∅ (kw_headers kw) !! k
  | Raise _ => sent run.2 = sent w
  end.
Proof.
  intros run. pose proof (send_request_world E self m url kw w) as Hone.
  fold run in Hone.
  destruct (session_getattr (lower m)) as [v|e]; [|by rewrite Hone].
  exists (request_sent self v url kw). eexists.
  repeat (split; [done|]). intros k Hk. simpl.
  destruct (default ∅ (kw_headers kw) !! "Content-Type"); [done|].
  rewrite lookup_union, fhir_version_headers_only_content_type by done.
  by destruct (default ∅ (kw_headers kw) !! k).
Qed.

(** X8. The keyword arguments [send_request] sends are a fixed point of
    what it does to keyword arguments: handed to [send_request] of the
    same client again, for any method and URL, they are sent unchanged.
    So a caller that reuses keyword arguments that have been through
    [send_request] gets the same credential and headers once more. *)
Theorem X8_sent_kwargs_are_stable
    (E : env) (self : FhirApiClient) (m m' : string) (url url' : option string)
    (kw : kwargs) (w w2 : world) (v v' : verb) (rq : request) :
  session_getattr (lower m) = Ok v →
  session_getattr (lower m') = Ok v' →
  sent (send_request E self m url kw w).2 = sent w ++ [rq] →
  sent (send_request E self m' url' (req_kwargs rq) w2).2 =
    sent w2 ++ [{| req_session := session self; req_verb := v';
                   req_url := url'; req_kwargs := req_kwargs rq |}].
Proof.
  intros Hd Hd' Hsent.
  pose proof (send_request_world E self m url kw w) as Hone.
  rewrite Hd, Hsent in Hone.
  apply app_inv_head in Hone. injection Hone as ->.
  pose proof (send_request_world E self m' url'
                (req_kwargs (request_sent self v url kw)) w2) as Htwo.
  rewrite Hd' in Htwo. rewrite Htwo. f_equal. f_equal.
  unfold request_sent. simpl. f_equal. f_equal.
  - by destruct (auth self).
  - f_equal. destruct (default ∅ (kw_headers kw) !! "Content-Type") as [ct|] eqn:Hct.
    + by rewrite Hct.
    + unfold _fhir_version_headers.
      destruct (fhir_version self) as [[|c s]|].
      * rewrite (left_id_L ∅ (∪)), Hct. by rewrite (left_id_L ∅ (∪)).
      * rewrite lookup_union, lookup_singleton_eq. by destruct (_ !! _).
      * rewrite (left_id_L ∅ (∪)), Hct. by rewrite (left_id_L ∅ (∪)).
Qed.

(** X8 at work: what a GET sent, passed to a DELETE. *)
Lemma X8_witness :
  let E := scripted [answer 200 "{}" (Some (PDict [])); answer 204 "" None] in
  let rq := request_sent demo_client GET (Some "http://localhost:8000/Patient")
              no_kwargs in
  sent (send_request E demo_client "delete"
          (Some "http://localhost:8000/Patient/1") (req_kwargs rq) fresh).2 =
    [{| req_session := session demo_client; req_verb := DELETE;
        req_url := Some "http://localhost:8000/Patient/1";
        req_kwargs := req_kwargs rq |}].
Proof.
  intros E rq.
  exact (X8_sent_kwargs_are_stable E demo_client "get" "delete"
           (Some "http://localhost:8000/Patient")
           (Some "http://localhost:8000/Patient/1") no_kwargs fresh fresh
           GET DELETE rq eq_refl eq_refl eq_refl).
Defined.

(** ** Bulk write, again *)

Lemma post_or_put_sends_exact E self endpoint rd method w v o w' :
  session_getattr (lower method) = Ok v →
  post_or_put E self endpoint rd method w = (o, w') →
  sent w' = sent w ++ [request_sent self v endpoint (item_kwargs rd)].
Proof.
  intros Hd. unfold post_or_put, bind at 1. unfold log at 1. unfold bind at 1.
  fold (item_kwargs rd).
  destruct (send_request E self method endpoint (item_kwargs rd) _)
    as [[[b res]|e] w1] eqn:Hsend;
    apply (send_request_sends _ _ _ _ _ _ _ Hd) in Hsend; simpl in Hsend.
  - run. destruct b; intros [= _ <-]; exact Hsend.
  - intros [= _ <-]. exact Hsend.
Qed.

Lemma post_or_put_dispatches E self endpoint rd method w o w' :
  post_or_put E self endpoint rd method w = (Ok o, w') →
  ∃ v, session_getattr (lower method) = Ok v.
Proof.
  unfold post_or_put.
  intros (? & w0 & _ & Hrest)%bind_inv_ok.
  apply bind_inv_ok in Hrest as ([b res] & w1 & Hsend & _).
  destruct (session_getattr (lower method)) as [v|e] eqn:Hd; [by exists v|].
  by rewrite (send_request_no_such_method _ _ _ _ _ _ _ Hd) in Hsend.
Qed.

Lemma items_run_requests E self endpoint method w rds os w' v :
  session_getattr (lower method) = Ok v →
  items_run E self endpoint method w rds os w' →
  sent w' = sent w ++ map (item_request self v endpoint) rds.
Proof.
  intros Hd. induction 1 as [w|w rd rds o os w1 w2 Hone Hrest IH]; simpl.
  - by rewrite app_nil_r.
  - rewrite IH, (post_or_put_sends_exact _ _ _ _ _ _ _ _ _ Hd Hone).
    by rewrite <- app_assoc.
Qed.

Lemma post_or_put_each_keys E self endpoint method w rds os w' :
  items_run E self endpoint method w rds os w' →
  ∀ success rs,
    ∃ rs',
      post_or_put_each E self rds endpoint method success rs w =
        (Ok (forallb fst os && success, rs'), w') ∧
      dom (res_success rs') ∪ dom (res_errors rs') =
        dom (res_success rs) ∪ dom (res_errors rs) ∪
        list_to_set (rd_filepath <$> rds) ∧
      (∀ k r, res_success rs' !! k = Some r →
         res_success rs !! k = Some r ∨
         ∃ i rd, rds !! i = Some rd ∧ os !! i = Some (true, r) ∧
                 rd_filepath rd = k) ∧
      (∀ k r, res_errors rs' !! k = Some r →
         res_errors rs !! k = Some r ∨
         ∃ i rd, rds !! i = Some rd ∧ os !! i = Some (false, r) ∧
                 rd_filepath rd = k).
Proof.
  induction 1 as [w|w rd rds [success_one result] os w1 w2 Hone Hrest IH];
    intros success rs.
  - exists rs. simpl. split; [done|]. split; [set_solver|]. split; eauto.
  - set (rs1 := if success_one
                then {| res_success := <[rd_filepath rd := result]> (res_success rs);
                        res_errors := res_errors rs |}
                else {| res_success := res_success rs;
                        res_errors := <[rd_filepath rd := result]> (res_errors rs) |}).
    destruct (IH (success_one && success) rs1) as (rs' & Hrun & Hdom & Hs & He).
    exists rs'. split; [|split; [|split]].
    + simpl. unfold item_endpoint in Hone. rewrite (bind_ok _ _ _ _ _ Hone).
      fold rs1. rewrite Hrun. f_equal. f_equal.
      by destruct success_one, (forallb fst os), success.
    + rewrite Hdom. subst rs1. rewrite fmap_cons, list_to_set_cons.
      destruct success_one; simpl; rewrite dom_insert_L; set_solver.
    + intros k r Hk. destruct (Hs k r Hk) as [Hin | (i & rd' & ? & ? & ?)];
        [|right; by exists (S i), rd'].
      subst rs1. destruct success_one; simpl in Hin; [|by left].
      destruct (decide (rd_filepath rd = k)) as [<-|Hne].
      * rewrite lookup_insert_eq in Hin. injection Hin as <-.
        right. by exists 0%nat, rd.
      * rewrite lookup_insert_ne in Hin by done. by left.
    + intros k r Hk. destruct (He k r Hk) as [Hin | (i & rd' & ? & ? & ?)];
        [|right; by exists (S i), rd'].
      subst rs1. destruct success_one; simpl in Hin; [by left|].
      destruct (decide (rd_filepath rd = k)) as [<-|Hne].
      * rewrite lookup_insert_eq in Hin. injection Hin as <-.
        right. by exists 0%nat, rd.
      * rewrite lookup_insert_ne in Hin by done. by left.
Qed.

(** X9. Whatever the filepaths of the items, shared or not: when every
    item's [post_or_put] returns, the keys of the two mappings together
    are exactly the filepaths of the input items (no item is left out, no
    key is made up), and every result filed is the result of an input item
    with that filepath, filed under successes if that item succeeded and
    under failures if it failed. *)
Theorem X9_batch_keys_and_provenance
    (E : env) (self : FhirApiClient) (endpoint : option string)
    (method : string) (w w' : world) (rds : list resource_dict)
    (os : list (bool * result)) :
  items_run E self endpoint method w rds os w' →
  ∃ rs,
    post_or_put_all E self rds endpoint method w =
      (Ok (forallb fst os, rs), w') ∧
    dom (res_success rs) ∪ dom (res_errors rs) =
      list_to_set (rd_filepath <$> rds) ∧
    (∀ k r, res_success rs !! k = Some r →
       ∃ i rd, rds !! i = Some rd ∧ os !! i = Some (true, r) ∧
               rd_filepath rd = k) ∧
    (∀ k r, res_errors rs !! k = Some r →
       ∃ i rd, rds !! i = Some rd ∧ os !! i = Some (false, r) ∧
               rd_filepath rd = k).
Proof.
  intros Hrun.
  destruct (post_or_put_each_keys _ _ _ _ _ _ _ _ Hrun true
              {| res_success := ∅; res_errors := ∅ |})
    as (rs & Heach & Hdom & Hs & He).
  rewrite andb_true_r in Heach. exists rs. split; [exact Heach|].
  simpl in *. split; [|split].
  - rewrite Hdom. set_solver.
  - intros k r Hk. by destruct (Hs k r Hk) as [Hin|].
  - intros k r Hk. by destruct (He k r Hk) as [Hin|].
Qed.

(** X9 at work: two items share a filepath, the first is created and the
    second refused, and the one key sits in both mappings. *)
Lemma X9_witness :
  let E := scripted [answer 201 "{}" (Some (PDict []));
                     answer 400 "{}" (Some (PDict []))] in
  let rds := [item "a.json"; item "a.json"] in
  ∃ rs w', post_or_put_all E demo_client rds
             (Some "http://localhost:8000/Patient") "post" fresh
           = (Ok (false, rs), w') ∧
           dom (res_success rs) ∪ dom (res_errors rs) = {[ "a.json" ]}.
Proof.
  intros E rds.
  pose (ok := λ s, {| res_status_code := s;
                      res_request_url := "http://localhost:8000/Patient";
                      res_response := PDict [] |}).
  pose (os := [(true, ok 201); (false, ok 400)]).
  destruct (X9_batch_keys_and_provenance E demo_client
              (Some "http://localhost:8000/Patient") "post" fresh
              (post_or_put_all E demo_client rds
                 (Some "http://localhost:8000/Patient") "post" fresh).2
              rds os)
    as (rs & Hrun & Hdom & _).
  { repeat (apply items_run_step; [reflexivity|]). apply items_run_nil. }
  exists rs. eexists. split; [exact Hrun|].
  rewrite Hdom. simpl. set_solver.
Defined.

(** X10. When every item's [post_or_put] returns, the requests of the
    batch are, in the order of the input, one request per item: sent with
    the method of the batch to the item's own endpoint, or to the endpoint
    of the batch when the item has none, with the item's content as json
    payload, the client's credential, and the version header as only
    header. *)
Theorem X10_batch_requests
    (E : env) (self : FhirApiClient) (endpoint : option string)
    (method : string) (w w' : world) (rds : list resource_dict)
    (os : list (bool * result)) (v : verb) :
  session_getattr (lower method) = Ok v →
  items_run E self endpoint method w rds os w' →
  ∃ rqs,
    sent w' = sent w ++ rqs ∧
    Forall2 (λ rd rq,
               req_session rq = session self ∧
               req_verb rq = v ∧
               req_url rq = match rd_endpoint rd with
                            | Some e => Some e
                            | None => endpoint
                            end ∧
               kw_json (req_kwargs rq) = Some (rd_content rd) ∧
               kw_auth (req_kwargs rq) = auth self ∧
               kw_headers (req_kwargs rq) = Some (_fhir_version_headers self))
            rds rqs.
Proof.
  intros Hd Hrun. exists (map (item_request self v endpoint) rds).
  split; [by eapply items_run_requests|].
  clear. induction rds as [|rd rds IH]; constructor; [|done].
  repeat (split; [done|]). simpl. split.
  - by destruct (auth self).
  - by rewrite lookup_empty, (right_id_L ∅ (∪)).
Qed.

(** X10 at work: the second item names its own endpoint. *)
Lemma X10_witness :
  let E := scripted [answer 201 "{}" (Some (PDict []));
                     answer 201 "{}" (Some (PDict []))] in
  let own := {| rd_content := PDict [("resourceType", PStr "ValueSet")];
                rd_resource_type := "ValueSet";
                rd_filename := "v.json";
                rd_filepath := "v.json";
                rd_endpoint := Some "http://localhost:8000/ValueSet" |} in
  let run := post_or_put_all E demo_client [item "a.json"; own]
               (Some "http://localhost:8000/Patient") "post" fresh in
  map req_url (sent run.2) =
    [Some "http://localhost:8000/Patient"; Some "http://localhost:8000/ValueSet"].
Proof.
  intros E own run.
  pose (ok := (true, {| res_status_code := 201;
                        res_request_url := "http://localhost:8000/Patient";
                        res_response := PDict [] |})).
  destruct (X10_batch_requests E demo_client
              (Some "http://localhost:8000/Patient") "post" fresh run.2
              [item "a.json"; own] [ok; ok] POST eq_refl)
    as (rqs & Hsent & Hall).
  { repeat (apply items_run_step; [reflexivity|]). apply items_run_nil. }
  rewrite Hsent. simpl.
  apply Forall2_cons_inv_l in Hall as (rq1 & rqs1 & (_ & _ & Hu1 & _) & Hall & ->).
  apply Forall2_cons_inv_l in Hall as (rq2 & rqs2 & (_ & _ & Hu2 & _) & Hall & ->).
  apply Forall2_nil_inv_l in Hall as ->.
  simpl. by rewrite Hu1, Hu2.
Defined.

(** ** Fetch, then delete each, again *)

(** Every way the loop has of returning. *)
Lemma delete_each_inv E self auth entries :
  ∀ success w b w',
    delete_each E self entries auth success w = (Ok b, w') →
    ∃ urls os,
      delete_targets E self entries = Some urls ∧
      deletes_run E self auth w urls os w' ∧
      b = forallb id os && success.
Proof.
  induction entries as [|entry rest IH]; intros success w b w' Hrun.
  - injection Hrun as <- <-. exists [], []. repeat split. constructor.
  - simpl. destruct (entry_target E self entry) as [[url|]|] eqn:Ht.
    + rewrite (delete_each_target _ _ _ _ _ _ _ _ Ht) in Hrun.
      destruct (send_request _ _ _ _ _ _) as [[[o res]|e] w1] eqn:Hsend;
        [|discriminate].
      destruct (IH _ _ _ _ Hrun) as (urls & os & -> & Hdel & ->).
      exists (url :: urls), (o :: os). split; [done|].
      split; [by eapply deletes_run_cons|].
      change (forallb id (o :: os)) with (o && forallb id os).
      by destruct o, (forallb id os), success.
    + rewrite (delete_each_skip _ _ _ _ _ _ _ Ht) in Hrun.
      destruct (IH _ _ _ _ Hrun) as (urls & os & -> & Hdel & ->).
      by exists urls, os.
    + destruct (delete_each_malformed _ _ _ rest auth success w Ht) as [e He].
      congruence.
Qed.

(** Whatever comes of the loop, the requests it has sent are DELETEs for
    targets of its entries. *)
Lemma delete_each_sends E self auth entries :
  ∀ success w,
    ∃ urls,
      sent (delete_each E self entries auth success w).2 =
        sent w ++ map (delete_request self auth) urls ∧
      ∀ url, url ∈ urls →
        ∃ entry, entry ∈ entries ∧ entry_target E self entry = Some (Some url).
Proof.
  induction entries as [|entry rest IH]; intros success w.
  - exists []. simpl. split; [by rewrite app_nil_r | by intros ? ?%elem_of_nil].
  - destruct (entry_target E self entry) as [[url|]|] eqn:Ht.
    + rewrite (delete_each_target _ _ _ _ _ _ _ _ Ht).
      destruct (send_request _ _ _ _ _ _) as [[[o res]|e] w1] eqn:Hsend;
        apply (send_request_sends E self "delete" _ _ _ DELETE eq_refl) in Hsend;
        simpl in Hsend.
      * destruct (IH (o && success) w1) as (urls & Hsent & Hall).
        exists (url :: urls). split.
        -- rewrite Hsent, Hsend. simpl. by rewrite <- app_assoc.
        -- intros url' [->|Hin]%elem_of_cons.
           ++ exists entry. split; [by constructor | done].
           ++ destruct (Hall _ Hin) as (entry' & ? & ?).
              exists entry'. split; [by constructor | done].
      * exists [url]. split; [done|].
        intros url' ->%list_elem_of_singleton.
        exists entry. split; [by constructor | done].
    + rewrite (delete_each_skip _ _ _ _ _ _ _ Ht).
      destruct (IH success w) as (urls & Hsent & Hall).
      exists urls. split; [done|].
      intros url Hin. destruct (Hall _ Hin) as (entry' & ? & ?).
      exists entry'. split; [by constructor | done].
    + destruct (delete_each_malformed _ _ _ rest auth success w Ht) as [e ->].
      exists []. simpl. split; [by rewrite app_nil_r | by intros ? ?%elem_of_nil].
Qed.

Lemma targets_of_strings E self (l : list pyval) urls :
  Forall (λ v, is_object v = false) l →
  delete_targets E self l = Some urls → l = [].
Proof.
  intros Hall. destruct l as [|v l]; [done|].
  apply Forall_cons in Hall as [Hv _]. simpl.
  by destruct v.
Qed.

(** The entries the loop draws from a body, when it then returns. *)
Lemma drawn_entries E self d its urls :
  py_iter (default (PList []) (dict_lookup "entry" d)) = Ok its →
  delete_targets E self its = Some urls →
  its = body_entries (PDict d).
Proof.
  unfold body_entries.
  destruct (dict_lookup "entry" d) as [[| | | |s|l|d']|]; simpl;
    try discriminate; intros [= <-]; try done.
  - apply targets_of_strings, chars_not_objects.
  - apply targets_of_strings, keys_not_objects.
Qed.

(** X11. When [delete_all] returns, the fetch had returned with an object
    as body. If the fetch was classified as a failure, the result is
    [False] and nothing more was sent. If it was classified as a success,
    then every entry of the body had a resource that is an
    OperationOutcome or has a type and an id, a DELETE was sent for each
    of the latter and classified, and the result is the conjunction of
    these outcomes: [delete_all] never returns [True] with an entry left
    undeleted, nor after a failed fetch. *)
Theorem X11_cascade_return
    (E : env) (self : FhirApiClient) (endpoint : option string) (kw : kwargs)
    (w : world) (b : bool) (w' : world) :
  delete_all E self endpoint kw w = (Ok b, w') →
  ∃ fetch_ok res w1 d,
    send_request E self "get" endpoint (fetch_kwargs self kw) (begun w)
      = (Ok (fetch_ok, res), w1) ∧
    res_response res = PDict d ∧
    (fetch_ok = false → b = false ∧ sent w' = sent w1) ∧
    (fetch_ok = true →
     ∃ urls os,
       delete_targets E self (body_entries (PDict d)) = Some urls ∧
       deletes_run E self (kw_auth (fetch_kwargs self kw))
         (fetched E res d w1) urls os w' ∧
       b = forallb id os).
Proof.
  unfold delete_all. fold (fetch_kwargs self kw).
  intros (? & w0 & [= <- <-] & Hrun)%bind_inv_ok.
  apply bind_inv_ok in Hrun as ([fetch_ok res] & w1 & Hfetch & Hrun).
  apply bind_inv_ok in Hrun as (total & ? & [= Htotal <-] & Hrun).
  destruct (res_response res) as [| | | | | |d] eqn:Hbody; try discriminate.
  simpl in Htotal. injection Htotal as <-.
  apply bind_inv_ok in Hrun as (? & w2 & [= <- <-] & Hrun).
  exists fetch_ok, res, w1, d. split; [exact Hfetch|]. split; [done|].
  destruct fetch_ok; simpl in Hrun.
  - split; [discriminate|]. intros _.
    apply bind_inv_ok in Hrun as (entry & ? & [= <- <-] & Hrun).
    apply bind_inv_ok in Hrun as (its & ? & [= Hiter <-] & Hrun).
    apply delete_each_inv in Hrun as (urls & os & Htargets & Hdel & ->).
    rewrite (drawn_entries _ _ _ _ _ Hiter Htargets) in Htargets.
    exists urls, os. rewrite andb_true_r. by repeat split.
  - split; [|discriminate]. intros _. by injection Hrun as <- <-.
Qed.

(** X11 at work, on the run of three entries. *)
Lemma X11_witness :
  let E := scripted [answer 200 "..." (Some (PDict bundle));
                     answer 204 "" None;
                     answer 204 "" None] in
  ∃ urls, delete_targets E demo_client (body_entries (PDict bundle)) = Some urls ∧
          length urls = 2%nat.
Proof.
  intros E.
  destruct (X11_cascade_return E demo_client
              (Some "http://localhost:8000/Patient") no_kwargs fresh true _
              (run_eta (delete_all E demo_client
                          (Some "http://localhost:8000/Patient") no_kwargs fresh)
                 true eq_refl))
    as (fetch_ok & res & w1 & d & Hfetch & Hbody & _ & Hdone).
  assert (fetch_ok = true ∧ d = bundle) as [-> ->].
  { pose proof (f_equal fst Hfetch) as Hfst. simpl in Hfst.
    injection Hfst as <- <-. simpl in Hbody. by injection Hbody as <-. }
  destruct (Hdone eq_refl) as (urls & os & Htargets & _).
  exists urls. split; [exact Htargets|].
  simpl in Htargets. by injection Htargets as <-.
Defined.

(** Whatever comes of [delete_all], what it has sent is the GET and then
    DELETEs for targets of the fetched entries. *)
Lemma delete_all_sends E self endpoint kw w :
  let get := request_sent self GET endpoint (fetch_kwargs self kw) in
  ∃ urls,
    sent (delete_all E self endpoint kw w).2 =
      sent w ++ get ::
        map (delete_request self (kw_auth (fetch_kwargs self kw))) urls ∧
    ∀ url, url ∈ urls →
      ∃ r entry,
        remote E (sent w) get = Ok r ∧
        entry ∈ body_entries (_response_content r) ∧
        entry_target E self entry = Some (Some url).
Proof.
  intros get. unfold delete_all. fold (fetch_kwargs self kw).
  unfold bind at 1, log at 1. fold (begun w). unfold bind at 1.
  destruct (send_request E self "get" endpoint (fetch_kwargs self kw) (begun w))
    as [[[fetch_ok res]|e] w1] eqn:Hfetch.
  2: { exists []. split; [|by intros ? ?%elem_of_nil].
       by apply (send_request_sends E self "get" _ _ _ GET eq_refl) in Hfetch. }
  destruct (send_request_returns E self "get" _ _ _ GET eq_refl _ _ _ Hfetch)
    as (r & Hr & -> & Hsent).
  simpl in Hsent. simpl res_response. simpl res_request_url.
  destruct (_response_content r) as [| | | | | |d] eqn:Hbody;
    try (exists []; split; [exact Hsent | by intros ? ?%elem_of_nil]).
  run. destruct fetch_ok; simpl;
    [|exists []; split; [exact Hsent | by intros ? ?%elem_of_nil]].
  destruct (py_iter (default (PList []) (dict_lookup "entry" d))) as [its|e] eqn:Hiter;
    simpl; [|exists []; split; [exact Hsent | by intros ? ?%elem_of_nil]].
  destruct (delete_each_sends E self (kw_auth (fetch_kwargs self kw)) its true
              {| sent := sent w1;
                 logged := logged w1 ++
                   [(DEBUG, "Fetched " +:+
                            py_str E (default PNone (dict_lookup "total" d)) +:+
                            " item(s) from " +:+ unquote E (Response.url r))] |})
    as (urls & Hdel & Hall).
  exists urls. split.
  - rewrite Hdel. simpl. rewrite Hsent. by rewrite <- app_assoc.
  - intros url Hin. destruct (Hall _ Hin) as (entry & Hentry & Ht).
    exists r, entry. split; [exact Hr|]. split; [|exact Ht].
    rewrite Hbody. unfold body_entries.
    destruct (dict_lookup "entry" d) as [[| | | |s|l|d']|]; simpl in Hiter;
      try discriminate; injection Hiter as <-; try done.
    + exfalso. clear -Hentry Ht.
      induction s as [|c s IH]; simpl in Hentry; [by apply elem_of_nil in Hentry|].
      apply elem_of_cons in Hentry as [->|Hentry]; [discriminate | auto].
    + exfalso. clear -Hentry Ht.
      induction d' as [|kv d' IH]; simpl in Hentry; [by apply elem_of_nil in Hentry|].
      apply elem_of_cons in Hentry as [->|Hentry]; [discriminate | auto].
Qed.

(** X12. Whatever comes of [delete_all] (a result or an exception, at any
    point), the requests it has sent are the GET followed by DELETEs only,
    and each DELETE goes to [base_url/resourceType/id] of the resource of
    an entry of the fetched body that is not an OperationOutcome. No
    DELETE is ever sent for an OperationOutcome, nor to a URL that does
    not come from a fetched entry, nor when the fetch had no answer. *)
Theorem X12_cascade_deletes_only_targets
    (E : env) (self : FhirApiClient) (endpoint : option string) (kw : kwargs)
    (w : world) :
  let get := request_sent self GET endpoint (fetch_kwargs self kw) in
  ∃ urls,
    sent (delete_all E self endpoint kw w).2 =
      sent w ++ get ::
        map (λ url, request_sent self DELETE (Some url)
                      (delete_kwargs (kw_auth (fetch_kwargs self kw)))) urls ∧
    ∀ url, url ∈ urls →
      ∃ r e rs rs_type rs_id,
        remote E (sent w) get = Ok r ∧
        PDict e ∈ body_entries (_response_content r) ∧
        dict_lookup "resource" e = Some (PDict rs) ∧
        dict_lookup "resourceType" rs = Some rs_type ∧
        py_eq_str rs_type "OperationOutcome" = false ∧
        dict_lookup "id" rs = Some rs_id ∧
        url = fmt_opt (base_url self) +:+ "/" +:+ py_str E rs_type +:+ "/" +:+
              py_str E rs_id.
Proof.
  intros get. destruct (delete_all_sends E self endpoint kw w) as (urls & Hsent & Hall).
  exists urls. split; [exact Hsent|].
  intros url Hin. destruct (Hall _ Hin) as (r & entry & Hr & Hentry & Ht).
  unfold entry_target in Ht.
  destruct entry as [| | | | | |e]; try discriminate.
  destruct (dict_lookup "resource" e) as [[| | | | | |rs]|] eqn:Hrs;
    try discriminate.
  destruct (dict_lookup "resourceType" rs) as [rs_type|] eqn:Hty; [|discriminate].
  destruct (py_eq_str rs_type "OperationOutcome") eqn:Hoo; [discriminate|].
  destruct (dict_lookup "id" rs) as [rs_id|] eqn:Hid; [|discriminate].
  injection Ht as <-. by exists r, e, rs, rs_type, rs_id.
Qed.

(** X13. Every DELETE of a [delete_all] run carries the credential the GET
    carried (the client's if it has one, else the one of the call), no
    payload, and the version header as only header: headers handed to
    [delete_all] reach the fetch alone. *)
Theorem X13_cascade_delete_kwargs
    (E : env) (self : FhirApiClient) (endpoint : option string) (kw : kwargs)
    (w : world) :
  ∃ get deletes,
    sent (delete_all E self endpoint kw w).2 = sent w ++ get :: deletes ∧
    req_verb get = GET ∧
    kw_auth (req_kwargs get) =
      match auth self with Some a => Some a | None => kw_auth kw end ∧
    Forall (λ rq,
              req_verb rq = DELETE ∧
              req_session rq = session self ∧
              kw_auth (req_kwargs rq) = kw_auth (req_kwargs get) ∧
              kw_json (req_kwargs rq) = None ∧
              kw_headers (req_kwargs rq) = Some (_fhir_version_headers self))
           deletes.
Proof.
  destruct (delete_all_sends E self endpoint kw w) as (urls & Hsent & _).
  eexists _, _. split; [exact Hsent|]. split; [done|]. split.
  - unfold fetch_kwargs. simpl.
    destruct (auth self), (kw_auth kw) eqn:Hk; simpl; by rewrite ?Hk.
  - apply Forall_forall. intros rq (url & -> & _)%list_elem_of_fmap.
    repeat (split; [done|]). simpl.
    by rewrite lookup_empty, (right_id_L ∅ (∪)).
Qed.

(** ** Configuration *)

(** X15. [fhir_version_name] reads the version up to its first dot only,
    and hands it to [int]. What [int] raises, it raises. Otherwise a major
    below 3 (zero and negative numbers too) is named 'dstu2', 3 is 'stu3',
    4 is 'r4', and for 5 and above an Exception is raised: no other name
    is ever returned. *)
Theorem X15_fhir_version_name (int : string → config.returned Z)
    (fhir_version : string) :
  match int (split_dot_head fhir_version) with
  | config.Throw e =>
      config.fhir_version_name int fhir_version = config.Throw e
  | config.Return major =>
      (major < 3 →
       config.fhir_version_name int fhir_version = config.Return "dstu2") ∧
      (major = 3 →
       config.fhir_version_name int fhir_version = config.Return "stu3") ∧
      (major = 4 →
       config.fhir_version_name int fhir_version = config.Return "r4") ∧
      (5 ≤ major →
       ∃ msg, config.fhir_version_name int fhir_version =
                config.Throw (config.Exception msg))
  end ∧
  (∀ name, config.fhir_version_name int fhir_version = config.Return name →
           name = "dstu2" ∨ name = "stu3" ∨ name = "r4") ∧
  (∀ other, split_dot_head other = split_dot_head fhir_version →
     ∀ name, config.fhir_version_name int fhir_version = config.Return name →
             config.fhir_version_name int other = config.Return name).
Proof.
  unfold config.fhir_version_name. split; [|split].
  - destruct (int (split_dot_head fhir_version)) as [major|e]; [|done].
    repeat split.
    + intros H. by rewrite (proj2 (Z.ltb_lt _ _) H).
    + by intros ->.
    + by intros ->.
    + intros H.
      rewrite (proj2 (Z.ltb_ge _ _)) by lia.
      replace (major <? 4) with false by (symmetry; apply Z.ltb_ge; lia).
      replace (major <? 5) with false by (symmetry; apply Z.ltb_ge; lia).
      rewrite !andb_false_r. eauto.
  - intros name. destruct (int (split_dot_head fhir_version)) as [major|e];
      [|discriminate].
    destruct (major <? 3); [intros [= <-]; auto|].
    destruct ((3 <=? major) && (major <? 4)); [intros [= <-]; auto|].
    destruct ((4 <=? major) && (major <? 5)); [intros [= <-]; auto|].
    discriminate.
  - intros other -> name.
    destruct (int (split_dot_head fhir_version)) as [major|e]; [|discriminate].
    destruct (major <? 3); [done|].
    destruct ((3 <=? major) && (major <? 4)); [done|].
    destruct ((4 <=? major) && (major <? 5)); [done|].
    discriminate.
Qed.
